(** * Render3D, CLASE_05: the scene logic of [src/main.ts]

    The embedding follows [main.ts] function by function.  JavaScript
    numbers are read as real numbers (rounding is left out), the pixel
    bytes of the fallback texture as integers, the held-key [Set] as a
    [gset string], and the module-level variables ([keys], [cubes],
    [modelState], [lastTime], the device) as one [World] record that the
    event handlers and [frame] pass along.  The [mat4] module and the
    [Camera] class are imported by [main.ts] from files of their own; they
    enter as interfaces. *)

From Stdlib Require Import Reals Lra ZArith String List.
From stdpp Require Import base decidable list gmap strings.

Local Open Scope Z_scope.

(** ** The checkerboard fallback of [loadTextureOrCheckerboard] *)

Module Checkerboard.

(** [((x >> 4) & 1) ^ ((y >> 4) & 1)] *)
Definition checker (x y : Z) : Z :=
  Z.lxor (Z.land (Z.shiftr x 4) 1) (Z.land (Z.shiftr y 4) 1).

(** [checker ? 230 : 35]: a number is truthy unless it is zero. *)
Definition shade (x y : Z) : Z :=
  if Z.eqb (checker x y) 0 then 35 else 230.

(** The body of the inner loop: four stores into the [Uint8Array].  A store
    outside the array is dropped, as [<[_:=_]>] does. *)
Definition storePixel (w : Z) (y x : Z) (data : list Z) : list Z :=
  let i := (y * w + x) * 4 in
  let c := shade x y in
  let data := <[Z.to_nat (i + 0) := c]> data in
  let data := <[Z.to_nat (i + 1) := c]> data in
  let data := <[Z.to_nat (i + 2) := c]> data in
  <[Z.to_nat (i + 3) := 255]> data.

(** [for (let x = 0; x < w; x++)] *)
Definition fillRow (w : Z) (data : list Z) (y : Z) : list Z :=
  foldl (fun d x => storePixel w y x d) data (seqZ 0 w).

(** [for (let y = 0; y < h; y++)] *)
Definition fillImage (w h : Z) (data : list Z) : list Z :=
  foldl (fillRow w) data (seqZ 0 h).

(** [new Uint8Array(w * h * 4)] is zero-filled. *)
Definition newUint8Array (n : Z) : list Z := replicate (Z.to_nat n) 0.

Definition checkerboardData (w h : Z) : list Z :=
  fillImage w h (newUint8Array (w * h * 4)).

(** The four bytes of pixel [(x, y)] in a row-major RGBA8 buffer. *)
Definition pixelAt (w : Z) (data : list Z) (x y : Z) : option (Z * Z * Z * Z) :=
  let i := Z.to_nat ((y * w + x) * 4) in
  match data !! i, data !! (i + 1)%nat, data !! (i + 2)%nat, data !! (i + 3)%nat with
  | Some r, Some g, Some b, Some a => Some (r, g, b, a)
  | _, _, _, _ => None
  end.

(** The stores of both loops as one pass over the pixels [(y, x)] in the
    order the loops visit them; used to reason about [fillImage]. *)
Definition storeAll (w : Z) (ps : list (Z * Z)) (data : list Z) : list Z :=
  foldl (fun d p => storePixel w p.1 p.2 d) data ps.

Definition pixels (w h : Z) : list (Z * Z) :=
  y ← seqZ 0 h; (fun x => (y, x)) <$> seqZ 0 w.

(** The byte that [storePixel] leaves at offset [k] of pixel [(x, y)]. *)
Definition byteOf (x y k : Z) : Z := if k =? 3 then 255 else shade x y.

End Checkerboard.

(** ** [loadTextureOrCheckerboard]: the [try]/[catch] around the fetch *)

Module TextureLoad.

(** What is thrown: the [Error] that the status check builds from
    [res.status] and [url], or the reason a host call rejects with. *)
Inductive Error : Type :=
| HttpError (status : Z) (url : string)
| Rejected (reason : string).

(** A computation that returns or throws. *)
Inductive Try (A : Type) : Type :=
| Returned (a : A)
| Thrown (err : Error).
Arguments Returned {A} a.
Arguments Thrown {A} err.

Definition bind {A B : Type} (m : Try A) (k : A -> Try B) : Try B :=
  match m with
  | Returned a => k a
  | Thrown err => Thrown err
  end.

(** [try { body } catch (err) { handler }] *)
Definition tryCatch {A : Type} (body : Try A) (handler : Error -> Try A) : Try A :=
  match body with
  | Returned a => Returned a
  | Thrown err => handler err
  end.

Notation "'await' x <- m ; k" := (bind m (fun x => k))
  (at level 10, x name, m at level 100, k at level 200).

Record ImageBitmap : Type := { image_width : Z; image_height : Z }.

(** What [await fetch(url)] resolves to: [res.ok], [res.status] and the
    outcome of [await res.blob()]. *)
Record Response : Type := {
  ok : bool;
  status : Z;
  blob : Try (list Z)
}.

(** The browser calls the function awaits; each of them may reject. *)
Record Host : Type := {
  fetch : string -> Try Response;
  createImageBitmap : list Z -> Try ImageBitmap
}.

(** What the texture was filled from: [copyExternalImageToTexture] or
    [writeTexture] with its [bytesPerRow] and [rowsPerImage]. *)
Inductive TextureContents : Type :=
| FromImage (image : ImageBitmap)
| FromBytes (data : list Z) (bytesPerRow rowsPerImage : Z).

Record GPUTexture : Type := {
  texture_width : Z;
  texture_height : Z;
  texture_contents : TextureContents
}.

(** The body of the [try] block. *)
Definition loadTexture (host : Host) (url : string) : Try GPUTexture :=
  await res <- fetch host url;
  await _ <- (if negb (ok res) then Thrown (HttpError (status res) url) else Returned tt);
  await blob <- blob res;
  await image <- createImageBitmap host blob;
  Returned {| texture_width := image_width image;
              texture_height := image_height image;
              texture_contents := FromImage image |}.

(** The body of the [catch] block. *)
Definition checkerboardTexture : GPUTexture :=
  let w := 128 in
  let h := 128 in
  let data := Checkerboard.checkerboardData w h in
  {| texture_width := w;
     texture_height := h;
     texture_contents := FromBytes data (w * 4) h |}.

Definition loadTextureOrCheckerboard (host : Host) (url : string) : Try GPUTexture :=
  tryCatch (loadTexture host url) (fun _ => Returned checkerboardTexture).

(** The pixel bytes of a texture written from a byte array. *)
Definition textureBytes (t : GPUTexture) : list Z :=
  match texture_contents t with
  | FromBytes data _ _ => data
  | FromImage _ => []
  end.

End TextureLoad.

(** ** The scene: cubes, keys, the key handlers and [frame] *)

Local Open Scope R_scope.

(** The [mat4] object of [./math], as [main.ts] uses it. *)
Class Mat4Lib : Type := {
  Mat4 : Type;
  translation : R -> R -> R -> Mat4;
  scaling : R -> R -> R -> Mat4;
  rotationX : R -> Mat4;
  rotationY : R -> Mat4;
  rotationZ : R -> Mat4;
  multiply : Mat4 -> Mat4 -> Mat4;
  perspective : R -> R -> R -> R -> Mat4
}.

(** The [Camera] class of [./camera], as [main.ts] uses it. *)
Class CameraLib (M : Mat4Lib) : Type := {
  Camera : Type;
  camera_update : gset string -> R -> Camera -> Camera;
  getViewMatrix : Camera -> Mat4
}.

(** *** Device objects

    A buffer is known by the rank of the [createBuffer] call that made it;
    the device counts those calls.  The three textures are known by the
    names of their constants.  A bind group keeps the buffer of binding 0
    and the texture view of binding 2; the sampler of binding 1 is the
    same in all of them.  Device calls are taken to succeed. *)

Definition GPUBuffer : Type := nat.

Inductive TextureName : Type := texture | texture1 | texture2.

Record GPUTextureView : Type := { view_of : TextureName }.

Definition createView (t : TextureName) : GPUTextureView := {| view_of := t |}.

Record GPUBindGroup : Type := {
  binding0 : GPUBuffer;
  binding2 : option GPUTextureView
}.

Record GPUDevice : Type := { buffersCreated : nat }.

Definition createBuffer (dev : GPUDevice) : GPUBuffer * GPUDevice :=
  (buffersCreated dev, {| buffersCreated := S (buffersCreated dev) |}).

Definition createBindGroup (buffer : GPUBuffer) (view : option GPUTextureView) : GPUBindGroup :=
  {| binding0 := buffer; binding2 := view |}.

(** [vertexBuffer] and [uniformBuffer] are the first two buffers made. *)
Definition vertexBuffer : GPUBuffer := 0%nat.
Definition primaryUniformBuffer : GPUBuffer := 1%nat.
Definition startDevice : GPUDevice := {| buffersCreated := 2 |}.

Definition primaryBindGroup : GPUBindGroup :=
  createBindGroup primaryUniformBuffer (Some (createView texture)).

(** [vertices.length / 5] *)
Definition vertexCount : nat := 36.

(** *** [CubeState] *)

Record CubeState : Type := {
  tx : R;
  ty : R;
  tz : R;
  rx : R;
  ry : R;
  rz : R;
  s : R;
  order : string;
  uniformBuffer : option GPUBuffer;
  bindGroup : option GPUBindGroup;
  textureView : option GPUTextureView;
  rotSpeedX : R;
  rotSpeedY : R;
  rotSpeedZ : R
}.

(** [cube.order = o] *)
Definition set_order (o : string) (c : CubeState) : CubeState :=
  {| tx := tx c; ty := ty c; tz := tz c; rx := rx c; ry := ry c; rz := rz c;
     s := s c; order := o;
     uniformBuffer := uniformBuffer c; bindGroup := bindGroup c;
     textureView := textureView c;
     rotSpeedX := rotSpeedX c; rotSpeedY := rotSpeedY c; rotSpeedZ := rotSpeedZ c |}.

(** [cube.uniformBuffer = b; cube.bindGroup = g] *)
Definition set_resources (b : GPUBuffer) (g : GPUBindGroup) (c : CubeState) : CubeState :=
  {| tx := tx c; ty := ty c; tz := tz c; rx := rx c; ry := ry c; rz := rz c;
     s := s c; order := order c;
     uniformBuffer := Some b; bindGroup := Some g;
     textureView := textureView c;
     rotSpeedX := rotSpeedX c; rotSpeedY := rotSpeedY c; rotSpeedZ := rotSpeedZ c |}.

(** [cube.rx += cube.rotSpeedX * dt; cube.ry += ...; cube.rz += ...] *)
Definition advanceRotation (dt : R) (c : CubeState) : CubeState :=
  {| tx := tx c; ty := ty c; tz := tz c;
     rx := rx c + rotSpeedX c * dt;
     ry := ry c + rotSpeedY c * dt;
     rz := rz c + rotSpeedZ c * dt;
     s := s c; order := order c;
     uniformBuffer := uniformBuffer c; bindGroup := bindGroup c;
     textureView := textureView c;
     rotSpeedX := rotSpeedX c; rotSpeedY := rotSpeedY c; rotSpeedZ := rotSpeedZ c |}.

Definition createCubeBindGroup (dev : GPUDevice) (cube : CubeState) : CubeState * GPUDevice :=
  let '(uniBuffer, dev) := createBuffer dev in
  let bGroup := createBindGroup uniBuffer (textureView cube) in
  (set_resources uniBuffer bGroup cube, dev).

(** *** The module-level variables *)

Record World : Type := {
  keys : gset string;
  cubes : list CubeState;
  modelState : CubeState;
  lastTime : R;
  device : GPUDevice;
  canvas_width : R;
  canvas_height : R
}.

(** What [keydown] establishes for a cube before it pushes it, given the
    device at that moment: a buffer made after the two of the module, a
    bind group on that buffer and the cube's texture view, order TRS. *)
Definition cubeReady (dev : GPUDevice) (cube : CubeState) : Prop :=
  exists buffer,
    uniformBuffer cube = Some buffer /\
    bindGroup cube = Some (createBindGroup buffer (textureView cube)) /\
    (primaryUniformBuffer < buffer < buffersCreated dev)%nat /\
    order cube = "TRS"%string.

(** The invariant of the scene: every cube of the sequence is ready and no
    two of them share a buffer. *)
Definition sceneInvariant (w : World) : Prop :=
  Forall (cubeReady (device w)) (cubes w) /\
  NoDup (uniformBuffer <$> cubes w) /\
  (2 <= buffersCreated (device w))%nat.

(** [keys.has(k)] *)
Definition has (k : string) (ks : gset string) : bool := bool_decide (k ∈ ks).

(** [excludeKeys] of the [keydown] handler. *)
Definition excludeKeys : list string :=
  ["w"; "W"; "a"; "A"; "s"; "S"; "d"; "D";
   "ArrowUp"; "ArrowDown"; "ArrowLeft"; "ArrowRight";
   "q"; "Q"; "e"; "E"]%string.

(** [list.includes(k)] *)
Definition includes (l : list string) (k : string) : bool :=
  existsb (String.eqb k) l.

(** [Math.floor] *)
Definition Math_floor (x : R) : Z := Int_part x.

(** [array[i]] for a number [i] that is an integer: [undefined] outside. *)
Definition at_index {A : Type} (l : list A) (i : Z) : option A :=
  if (i <? 0)%Z then None else l !! Z.to_nat i.

(** The cube that the [keydown] handler builds; [random i] is what the
    [i]-th call of [Math.random()] in the handler returns. *)
Definition newCube (random : nat -> R) : CubeState :=
  let textures := [createView texture; createView texture1; createView texture2] in
  let randomTexture :=
    at_index textures (Math_floor (random 0%nat * INR (length textures))) in
  let randomAngle1 := random 1%nat * PI * 2 in
  let randomAngle2 := random 2%nat * PI * 2 in
  let randomAngle3 := random 3%nat * PI * 2 in
  {| tx := (random 4%nat - 0.5) * 50;
     ty := (random 5%nat - 0.5) * 50;
     tz := (random 6%nat - 0.5) * 50;
     rx := random 7%nat * PI * 2;
     ry := random 8%nat * PI * 2;
     rz := random 9%nat * PI * 2;
     s := random 10%nat * 1.5 + 0.5;
     order := "TRS";
     uniformBuffer := None;
     bindGroup := None;
     textureView := randomTexture;
     rotSpeedX := sin randomAngle1 * 2;
     rotSpeedY := cos randomAngle2 * 2;
     rotSpeedZ := sin randomAngle3 * 2 |}.

(** The [keydown] listener. *)
Definition keydown (key : string) (random : nat -> R) (w : World) : World :=
  let keys' := {[key]} ∪ keys w in
  if includes excludeKeys key then
    {| keys := keys'; cubes := cubes w; modelState := modelState w;
       lastTime := lastTime w; device := device w;
       canvas_width := canvas_width w; canvas_height := canvas_height w |}
  else
    let '(cube, dev) := createCubeBindGroup (device w) (newCube random) in
    {| keys := keys'; cubes := cubes w ++ [cube]; modelState := modelState w;
       lastTime := lastTime w; device := dev;
       canvas_width := canvas_width w; canvas_height := canvas_height w |}.

(** The [keyup] listener. *)
Definition keyup (key : string) (w : World) : World :=
  {| keys := keys w ∖ {[key]}; cubes := cubes w; modelState := modelState w;
     lastTime := lastTime w; device := device w;
     canvas_width := canvas_width w; canvas_height := canvas_height w |}.

(** [modelState] as the module creates it; [random 0], [random 1] and
    [random 2] are the draws behind [initialAngle1..3]. *)
Definition initialModelState (random : nat -> R) : CubeState :=
  let initialAngle1 := random 0%nat * PI * 2 in
  let initialAngle2 := random 1%nat * PI * 2 in
  let initialAngle3 := random 2%nat * PI * 2 in
  {| tx := 0; ty := 0; tz := 0;
     rx := 0; ry := 0; rz := 0;
     s := 1;
     order := "TRS";
     uniformBuffer := None; bindGroup := None; textureView := None;
     rotSpeedX := sin initialAngle1 * 2;
     rotSpeedY := cos initialAngle2 * 2;
     rotSpeedZ := sin initialAngle3 * 2 |}.

(** The variables once the module has been evaluated; [now] is the
    [performance.now()] stored in [lastTime]. *)
Definition initialWorld (random : nat -> R) (now width height : R) : World :=
  {| keys := ∅; cubes := []; modelState := initialModelState random;
     lastTime := now; device := startDevice;
     canvas_width := width; canvas_height := height |}.

Definition updateModelState (keys : gset string) (modelState : CubeState) : CubeState :=
  let modelState := if has "1" keys then set_order "TRS" modelState else modelState in
  let modelState := if has "2" keys then set_order "RTS" modelState else modelState in
  if has "3" keys then set_order "SRT" modelState else modelState.

(** [Math.min(0.033, (now - lastTime) / 1000)] *)
Definition frame_dt (lastTime now : R) : R :=
  Rmin 0.033 ((now - lastTime) / 1000).

(** The step as the design text words it: the smaller of the time elapsed
    since the last frame, in seconds, and a ceiling. *)
Definition clampedStep (ceiling lastTime now : R) : R :=
  Rmin ((now - lastTime) / 1000) ceiling.

Section Scene.
Context {M : Mat4Lib}.

(** The combined rotation [R] of [buildModelMatrix]. *)
Definition rotationOf (cube : CubeState) : Mat4 :=
  let Rx := rotationX (rx cube) in
  let Ry := rotationY (ry cube) in
  let Rz := rotationZ (rz cube) in
  multiply Rz (multiply Ry Rx).

(** The [switch] compares [cube.order] with each label in turn. *)
Definition buildModelMatrix (cube : CubeState) : Mat4 :=
  let T := translation (tx cube) (ty cube) (tz cube) in
  let S := scaling (s cube) (s cube) (s cube) in
  let R := rotationOf cube in
  if String.eqb (order cube) "TRS" then multiply T (multiply R S)
  else if String.eqb (order cube) "RTS" then multiply R (multiply T S)
  else if String.eqb (order cube) "SRT" then multiply S (multiply R T)
  else multiply T (multiply R S).

(** One [writeBuffer], [setBindGroup], [draw] triple of the render pass. *)
Record DrawCall : Type := {
  draw_buffer : GPUBuffer;
  draw_mvp : Mat4;
  draw_bindGroup : GPUBindGroup;
  draw_vertexCount : nat
}.

(** The body of [for (const cube of cubes)]: the cube is updated in place
    and drawn when it has both resources. *)
Definition frameCube (vp : Mat4) (dt : R)
    (acc : list CubeState * list DrawCall) (cube : CubeState)
    : list CubeState * list DrawCall :=
  let cube := advanceRotation dt cube in
  let cubeModel := buildModelMatrix cube in
  let cubeMvp := multiply vp cubeModel in
  match uniformBuffer cube, bindGroup cube with
  | Some buffer, Some group =>
      (acc.1 ++ [cube],
       acc.2 ++ [{| draw_buffer := buffer; draw_mvp := cubeMvp;
                    draw_bindGroup := group; draw_vertexCount := vertexCount |}])
  | _, _ => (acc.1 ++ [cube], acc.2)
  end.

(** The draws of the loop body for a cube that has been advanced: one when
    the guard passes, none otherwise.  Used to state what the loop issues. *)
Definition cubeDraws (vp : Mat4) (cube : CubeState) : list DrawCall :=
  match uniformBuffer cube, bindGroup cube with
  | Some buffer, Some group =>
      [{| draw_buffer := buffer; draw_mvp := multiply vp (buildModelMatrix cube);
          draw_bindGroup := group; draw_vertexCount := vertexCount |}]
  | _, _ => []
  end.

Context {C : CameraLib M}.

(** [frame(now)]: the new variables, the new camera and the draws of the
    render pass in the order they are issued. *)
Definition frame (now : R) (w : World) (camera : Camera)
    : World * Camera * list DrawCall :=
  let dt := frame_dt (lastTime w) now in
  let camera := camera_update (keys w) dt camera in
  let modelState := updateModelState (keys w) (modelState w) in
  let aspect := canvas_width w / canvas_height w in
  let proj := perspective (60 * PI / 180) aspect 0.1 100.0 in
  let view := getViewMatrix camera in
  let vp := multiply proj view in
  let modelState := advanceRotation dt modelState in
  let model := buildModelMatrix modelState in
  let mvp := multiply vp model in
  let first := {| draw_buffer := primaryUniformBuffer; draw_mvp := mvp;
                  draw_bindGroup := primaryBindGroup;
                  draw_vertexCount := vertexCount |} in
  let '(cubes, draws) := foldl (frameCube vp dt) ([], [first]) (cubes w) in
  ({| keys := keys w; cubes := cubes; modelState := modelState;
      lastTime := now; device := device w;
      canvas_width := canvas_width w; canvas_height := canvas_height w |},
   camera, draws).

(** The [vp] that [frame now w camera] computes, named to state what the
    draws carry. *)
Definition viewProjection (now : R) (w : World) (camera : Camera) : Mat4 :=
  multiply
    (perspective (60 * PI / 180) (canvas_width w / canvas_height w) 0.1 100.0)
    (getViewMatrix (camera_update (keys w) (frame_dt (lastTime w) now) camera)).

(** What the page receives after the module has been evaluated. *)
Inductive Event : Type :=
| KeyDown (key : string) (random : nat -> R)
| KeyUp (key : string)
| AnimationFrame (now : R).

Definition step (st : World * Camera) (e : Event) : World * Camera :=
  match e with
  | KeyDown key random => (keydown key random st.1, st.2)
  | KeyUp key => (keyup key st.1, st.2)
  | AnimationFrame now => (frame now st.1 st.2).1
  end.

Definition run (st : World * Camera) (events : list Event) : World * Camera :=
  foldl step st events.


End Scene.

(** *** The calls of [mat4] and [Camera] kept as terms

    An implementation of the two interfaces that computes nothing: a
    matrix is the tree of the [mat4] calls that made it, a camera is the
    list of the [update] calls it has received. *)

Inductive Mat4Term : Type :=
| Translation (x y z : R)
| Scaling (x y z : R)
| RotationX (angle : R)
| RotationY (angle : R)
| RotationZ (angle : R)
| Multiply (a b : Mat4Term)
| Perspective (fovY aspect near far : R)
| ViewMatrix (updates : list (gset string * R)).

Definition termMat4 : Mat4Lib :=
  {| Mat4 := Mat4Term;
     translation := Translation;
     scaling := Scaling;
     rotationX := RotationX;
     rotationY := RotationY;
     rotationZ := RotationZ;
     multiply := Multiply;
     perspective := Perspective |}.

Definition termCamera : CameraLib termMat4 :=
  {| Camera := list (gset string * R);
     camera_update := fun keys dt camera => camera ++ [(keys, dt)];
     getViewMatrix := ViewMatrix : _ -> @Mat4 termMat4 |}.

(** *** The matrices of [mat4] as numbers

    Modelled from the spec: the [mat4] module ([./math]) is not among the
    sources.  The design text gives a matrix as 16 numbers in column-major
    order, the constructors as the standard right-handed translation,
    scaling and rotations, [multiply(A, B)] as the product [A * B] that
    applies [B] first, and [perspective] as a standard perspective
    projection; for the last one the form with depth in [0, 1] is taken. *)

Definition entry (m : list R) (i : nat) : R := nth i m 0.

Definition real_translation (x y z : R) : list R :=
  [1; 0; 0; 0;  0; 1; 0; 0;  0; 0; 1; 0;  x; y; z; 1].

Definition real_scaling (x y z : R) : list R :=
  [x; 0; 0; 0;  0; y; 0; 0;  0; 0; z; 0;  0; 0; 0; 1].

Definition real_rotationX (a : R) : list R :=
  [1; 0; 0; 0;  0; cos a; sin a; 0;  0; - sin a; cos a; 0;  0; 0; 0; 1].

Definition real_rotationY (a : R) : list R :=
  [cos a; 0; - sin a; 0;  0; 1; 0; 0;  sin a; 0; cos a; 0;  0; 0; 0; 1].

Definition real_rotationZ (a : R) : list R :=
  [cos a; sin a; 0; 0;  - sin a; cos a; 0; 0;  0; 0; 1; 0;  0; 0; 0; 1].

(** Entry [i] of the product is row [i mod 4] of [a] times column [i / 4]
    of [b]. *)
Definition real_multiply (a b : list R) : list R :=
  (fun i : nat =>
     let r := (i mod 4)%nat in
     let c := (i / 4)%nat in
     entry a r * entry b (4 * c)
     + entry a (4 + r) * entry b (4 * c + 1)
     + entry a (8 + r) * entry b (4 * c + 2)
     + entry a (12 + r) * entry b (4 * c + 3)) <$> seq 0 16.

Definition real_perspective (fovY aspect near far : R) : list R :=
  let f := 1 / tan (fovY / 2) in
  [f / aspect; 0; 0; 0;  0; f; 0; 0;
   0; 0; far / (near - far); -1;  0; 0; near * far / (near - far); 0].

Definition realMat4 : Mat4Lib :=
  {| Mat4 := list R;
     translation := real_translation;
     scaling := real_scaling;
     rotationX := real_rotationX;
     rotationY := real_rotationY;
     rotationZ := real_rotationZ;
     multiply := real_multiply;
     perspective := real_perspective |}.

(** *** Concrete scenes *)

(** [Math.random()] returning one half at every call. *)
Definition randomHalf : nat -> R := fun _ => 1 / 2.

(** [Math.random()] returning one quarter at every call. *)
Definition randomQuarter : nat -> R := fun _ => 1 / 4.

(** Draws for which the spawned cube does not turn: a quarter for the
    second phase angle and for [rz], a half for [ty] and [tz], zero for
    the others. *)
Definition randomTurned : nat -> R :=
  fun i =>
    match i with
    | 2%nat | 9%nat => 1 / 4
    | 5%nat | 6%nat => 1 / 2
    | _ => 0
    end.

(** The cube spawned with those draws on a fresh page: 25 to the left,
    turned a quarter about Z, at rest. *)
Definition turnedCube : CubeState :=
  {| tx := -25; ty := 0; tz := 0;
     rx := 0; ry := 0; rz := PI / 2;
     s := 0.5;
     order := "TRS";
     uniformBuffer := Some 2%nat;
     bindGroup := Some (createBindGroup 2%nat (Some (createView texture)));
     textureView := Some (createView texture);
     rotSpeedX := 0; rotSpeedY := 0; rotSpeedZ := 0 |}.

(** A page of 800 by 600 pixels loaded at time 0, no key pressed yet. *)
Definition freshWorld : World := initialWorld randomHalf 0 800 600.



(** ** The rest of the module

    The checks and loads that run once when the module is evaluated,
    [resize], and what is needed to state how key events and frames act on
    the scene over time. *)

Module Startup.
Import TextureLoad.

(** Why the module stops: an [Error] it throws itself, with its message,
    or a rejection it awaits and does not catch. *)
Inductive Abort : Type :=
| Message (text : string)
| Uncaught (err : Error).

Inductive Outcome (A : Type) : Type :=
| Started (a : A)
| Aborted (why : Abort).
Arguments Started {A} a.
Arguments Aborted {A} why.

(** [adapter.requestDevice()] *)
Record Adapter : Type := { requestDevice : Try GPUDevice }.

(** [navigator.gpu]: [requestAdapter()] resolves to an adapter or [null]. *)
Record GPU : Type := { requestAdapter : option Adapter }.

(** The canvas element: whether [getContext("webgpu")] gives a context. *)
Record Canvas : Type := { getContext : bool }.

(** What the page offers: [navigator.gpu], if defined, and the element
    that [document.querySelector("#gfx-main")] finds, if any. *)
Record Browser : Type := {
  navigator_gpu : option GPU;
  querySelector : option Canvas
}.

(** The module from its first line to the three texture loads: the
    textures [texture], [texture1], [texture2] it goes on with, or why it
    stopped.  The device calls in between are taken to succeed. *)
Definition startup (page : Browser) (host : Host)
    : Outcome (GPUTexture * GPUTexture * GPUTexture) :=
  match navigator_gpu page with
  | None => Aborted (Message "WebGPU not supported")
  | Some gpu =>
  match querySelector page with
  | None => Aborted (Message "Canvas #gfx-main not found")
  | Some canvas =>
  match requestAdapter gpu with
  | None => Aborted (Message "No GPU adapter found")
  | Some adapter =>
  match requestDevice adapter with
  | Thrown err => Aborted (Uncaught err)
  | Returned _ =>
  if negb (getContext canvas) then Aborted (Message "Could not get WebGPU context")
  else
  match loadTextureOrCheckerboard host "/textures/Negro.avif" with
  | Thrown err => Aborted (Uncaught err)
  | Returned loaded =>
  match loadTextureOrCheckerboard host "/textures/Ladrillo.webp" with
  | Thrown err => Aborted (Uncaught err)
  | Returned loaded1 =>
  match loadTextureOrCheckerboard host "/textures/Metal.avif" with
  | Thrown err => Aborted (Uncaught err)
  | Returned loaded2 => Started (loaded, loaded1, loaded2)
  end end end end end end end.

(** A texture filled from a decoded image of its own size. *)
Definition fromImage (t : GPUTexture) : Prop :=
  exists image,
    t = {| texture_width := image_width image;
           texture_height := image_height image;
           texture_contents := FromImage image |}.

End Startup.

(** *** [resize]

    The canvas size and the depth texture, with the number of depth
    textures created and destroyed so far. *)




(** *** Event sequences *)

(** Whether the event is a key-down that spawns a cube. *)
Definition spawns (e : Event) : bool :=
  match e with
  | KeyDown key _ => negb (includes excludeKeys key)
  | _ => false
  end.

Definition spawnCount (events : list Event) : nat := length (filter spawns events).

(** Whether [k] is held after [events], given whether it was held before:
    the last key event for [k] decides. *)
Definition heldAfter (k : string) (held : bool) (events : list Event) : bool :=
  foldl (fun h e =>
           match e with
           | KeyDown key _ => if String.eqb key k then true else h
           | KeyUp key => if String.eqb key k then false else h
           | AnimationFrame _ => h
           end) held events.

(** The guard of the draw loop: [cube.uniformBuffer && cube.bindGroup]. *)
Definition hasResources (cube : CubeState) : bool :=
  match uniformBuffer cube, bindGroup cube with
  | Some _, Some _ => true
  | _, _ => false
  end.

(** The labels of the [switch] in [buildModelMatrix]. *)
Definition orderLabels : list string := ["TRS"; "RTS"; "SRT"]%string.

(** The fields of a cube that neither a frame nor the toggle writes. *)
Definition sameBody (c c' : CubeState) : Prop :=
  tx c' = tx c /\ ty c' = ty c /\ tz c' = tz c /\ s c' = s c /\
  rotSpeedX c' = rotSpeedX c /\ rotSpeedY c' = rotSpeedY c /\
  rotSpeedZ c' = rotSpeedZ c /\
  uniformBuffer c' = uniformBuffer c /\ bindGroup c' = bindGroup c /\
  textureView c' = textureView c.

(** *** More concrete inputs *)

(** A response that is [ok] and carries three bytes. *)
Definition okResponse : TextureLoad.Response :=
  {| TextureLoad.ok := true; TextureLoad.status := 200%Z;
     TextureLoad.blob := TextureLoad.Returned [1; 2; 3]%Z |}.

(** A host that serves that response and decodes it to a 64 by 32 image. *)
Definition servingHost : TextureLoad.Host :=
  {| TextureLoad.fetch := fun _ => TextureLoad.Returned okResponse;
     TextureLoad.createImageBitmap := fun _ =>
       TextureLoad.Returned
         {| TextureLoad.image_width := 64%Z; TextureLoad.image_height := 32%Z |} |}.

(** A host that serves that response and cannot decode it. *)
Definition garbledHost : TextureLoad.Host :=
  {| TextureLoad.fetch := fun _ => TextureLoad.Returned okResponse;
     TextureLoad.createImageBitmap := fun _ =>
       TextureLoad.Thrown (TextureLoad.Rejected "undecodable") |}.


(** * Properties *)

(** ** The checkerboard *)

Section CheckerboardFacts.
Import Checkerboard.
Local Open Scope Z_scope.

Lemma fillImage_storeAll w h data :
  fillImage w h data = storeAll w (pixels w h) data.
Proof.
  unfold fillImage, storeAll, pixels.
  generalize (seqZ 0 h) as ys. intros ys. revert data.
  induction ys as [|y ys IH]; intros data; [reflexivity|].
  cbn [foldl mbind list_bind]. rewrite foldl_app, <- IH.
  f_equal. unfold fillRow. now rewrite foldl_fmap.
Qed.

Lemma elem_of_pixels w h y x :
  (y, x) ∈ pixels w h <-> 0 <= y < h /\ 0 <= x < w.
Proof.
  unfold pixels. rewrite list_elem_of_bind. split.
  - intros (y' & Hx & Hy). apply list_elem_of_fmap in Hx as (x' & Heq & Hx).
    inversion Heq; subst. apply elem_of_seqZ in Hx, Hy. lia.
  - intros [Hy Hx]. exists y. split.
    + apply list_elem_of_fmap. exists x. split; [reflexivity|]. apply elem_of_seqZ. lia.
    + apply elem_of_seqZ. lia.
Qed.

Lemma storePixel_length w y x data :
  length (storePixel w y x data) = length data.
Proof. unfold storePixel. now rewrite !length_insert. Qed.

Lemma storeAll_length w ps data :
  length (storeAll w ps data) = length data.
Proof.
  unfold storeAll. revert data.
  induction ps as [|p ps IH]; intros data; [reflexivity|].
  cbn [foldl]. now rewrite IH, storePixel_length.
Qed.

Lemma storePixel_other w y x data (j : nat) :
  (forall k, 0 <= k < 4 -> j <> Z.to_nat ((y * w + x) * 4 + k)) ->
  storePixel w y x data !! j = data !! j.
Proof.
  intros Hj. unfold storePixel. cbn zeta.
  rewrite !list_lookup_insert_ne; [reflexivity| | | |];
    apply not_eq_sym, Hj; lia.
Qed.

Lemma storePixel_here w y x data k :
  0 <= y * w + x ->
  (Z.to_nat ((y * w + x) * 4 + 3) < length data)%nat ->
  0 <= k < 4 ->
  storePixel w y x data !! Z.to_nat ((y * w + x) * 4 + k) = Some (byteOf x y k).
Proof.
  intros Hp Hlen Hk. unfold storePixel, byteOf. cbn zeta.
  assert (k = 0 \/ k = 1 \/ k = 2 \/ k = 3) as [-> | [-> | [-> | ->]]] by lia; cbn [Z.eqb].
  - rewrite !list_lookup_insert_ne by lia.
    apply list_lookup_insert_eq. lia.
  - rewrite !list_lookup_insert_ne by lia.
    apply list_lookup_insert_eq. rewrite !length_insert. lia.
  - rewrite !list_lookup_insert_ne by lia.
    apply list_lookup_insert_eq. rewrite !length_insert. lia.
  - apply list_lookup_insert_eq. rewrite !length_insert. lia.
Qed.

Lemma storeAll_other w ps data (j : nat) :
  (forall p k, p ∈ ps -> 0 <= k < 4 -> j <> Z.to_nat ((p.1 * w + p.2) * 4 + k)) ->
  storeAll w ps data !! j = data !! j.
Proof.
  unfold storeAll. revert data.
  induction ps as [|p ps IH]; intros data Hj; [reflexivity|].
  cbn [foldl]. rewrite IH.
  - apply storePixel_other. intros k Hk. apply Hj; [left|exact Hk].
  - intros q k Hq Hk. apply Hj; [now right|exact Hk].
Qed.

(** Two pixels of the image do not share a byte. *)
Lemma pixel_bytes_disjoint w y x k y' x' k' :
  0 <= y -> 0 <= x < w -> 0 <= k < 4 ->
  0 <= y' -> 0 <= x' < w -> 0 <= k' < 4 ->
  (y, x) <> (y', x') ->
  Z.to_nat ((y * w + x) * 4 + k) <> Z.to_nat ((y' * w + x') * 4 + k').
Proof.
  intros Hy Hx Hk Hy' Hx' Hk' Hne Heq.
  apply Z2Nat.inj in Heq; [|nia|nia].
  assert (y * w + x = y' * w + x') as Hp by lia.
  assert (y = y') by nia. subst y'.
  assert (x = x') by lia. subst x'. now apply Hne.
Qed.

Lemma storeAll_here w ps data y x k :
  (forall p, p ∈ ps -> 0 <= p.1 /\ 0 <= p.2 < w) ->
  (y, x) ∈ ps ->
  (Z.to_nat ((y * w + x) * 4 + 3) < length data)%nat ->
  0 <= k < 4 ->
  storeAll w ps data !! Z.to_nat ((y * w + x) * 4 + k) = Some (byteOf x y k).
Proof.
  revert data.
  induction ps as [|p ps IH]; intros data Hin Hp Hlen Hk.
  - now apply elem_of_nil in Hp.
  - change (storeAll w (p :: ps) data) with (storeAll w ps (storePixel w p.1 p.2 data)).
    destruct (decide ((y, x) ∈ ps)) as [Hps|Hps].
    + apply IH; [intros q Hq; apply Hin; now right|exact Hps| |exact Hk].
      now rewrite storePixel_length.
    + apply elem_of_cons in Hp as [Hp|Hp]; [subst p|contradiction].
      destruct (Hin (y, x)) as [Hy Hx]; [left|]. cbn [fst snd] in *.
      rewrite storeAll_other.
      * apply storePixel_here; [nia|exact Hlen|exact Hk].
      * intros [y' x'] k' Hq Hk'. cbn [fst snd].
        destruct (Hin (y', x')) as [Hy' Hx']; [now right|]. cbn [fst snd] in *.
        apply pixel_bytes_disjoint; try assumption.
        intros Heq. inversion Heq; subst. contradiction.
Qed.

Lemma checkerboardData_length w h :
  0 <= w -> 0 <= h -> length (checkerboardData w h) = Z.to_nat (w * h * 4).
Proof.
  intros Hw Hh. unfold checkerboardData, newUint8Array.
  now rewrite fillImage_storeAll, storeAll_length, length_replicate.
Qed.

Lemma checkerboardData_byte w h x y k :
  0 <= x < w -> 0 <= y < h -> 0 <= k < 4 ->
  checkerboardData w h !! Z.to_nat ((y * w + x) * 4 + k) = Some (byteOf x y k).
Proof.
  intros Hx Hy Hk. unfold checkerboardData, newUint8Array.
  rewrite fillImage_storeAll. apply storeAll_here; [| |rewrite length_replicate|exact Hk].
  - intros [y' x'] Hp. apply elem_of_pixels in Hp. cbn [fst snd]. lia.
  - apply elem_of_pixels. lia.
  - apply Z2Nat.inj_lt; nia.
Qed.

Lemma checkerboardData_pixel w h x y :
  0 <= x < w -> 0 <= y < h ->
  pixelAt w (checkerboardData w h) x y =
    Some (shade x y, shade x y, shade x y, 255).
Proof.
  intros Hx Hy. unfold pixelAt. cbn zeta.
  assert (Hi : forall k : nat, (k < 4)%nat ->
            (Z.to_nat ((y * w + x) * 4) + k)%nat
            = Z.to_nat ((y * w + x) * 4 + Z.of_nat k)).
  { intros k Hk. rewrite Z2Nat.inj_add, Nat2Z.id by nia. reflexivity. }
  replace (Z.to_nat ((y * w + x) * 4)) with (Z.to_nat ((y * w + x) * 4) + 0)%nat at 1 by lia.
  rewrite !Hi by lia.
  rewrite !checkerboardData_byte by lia. reflexivity.
Qed.

End CheckerboardFacts.

(** ** Texture loading *)

Section TextureLoadFacts.
Import Checkerboard TextureLoad.
Local Open Scope Z_scope.

Lemma loadTextureOrCheckerboard_returns host url :
  loadTextureOrCheckerboard host url
  = match loadTexture host url with
    | Returned tex => Returned tex
    | Thrown _ => Returned checkerboardTexture
    end.
Proof. reflexivity. Qed.

(** C6: whatever the fetch does, [loadTextureOrCheckerboard] returns a
    texture and throws nothing; when the attempt inside [try] throws (at
    [fetch], at the status check, at [blob] or at [createImageBitmap]),
    as it does when the response is not [ok], the texture returned is
    the same 128 by 128 RGBA8 image, in which pixel
    [(x, y)] is [(230,230,230,255)] when [((x>>4)&1) ^ ((y>>4)&1)] is not
    zero and [(35,35,35,255)] otherwise; pixels (0,0) and (16,16) are
    dark, (16,0) and (0,16) are light. *)
Theorem fallback_is_checkerboard (host : Host) (url : string) :
  (exists tex, loadTextureOrCheckerboard host url = Returned tex) /\
  (forall err, loadTexture host url = Thrown err ->
     loadTextureOrCheckerboard host url = Returned checkerboardTexture) /\
  (forall res, fetch host url = Returned res -> ok res = false ->
     loadTextureOrCheckerboard host url = Returned checkerboardTexture) /\
  texture_width checkerboardTexture = 128 /\
  texture_height checkerboardTexture = 128 /\
  length (textureBytes checkerboardTexture) = Z.to_nat (128 * 128 * 4) /\
  (forall x y, 0 <= x < 128 -> 0 <= y < 128 ->
     pixelAt 128 (textureBytes checkerboardTexture) x y
     = Some (if Z.lxor (Z.land (Z.shiftr x 4) 1) (Z.land (Z.shiftr y 4) 1) =? 0
             then (35, 35, 35, 255) else (230, 230, 230, 255))) /\
  pixelAt 128 (textureBytes checkerboardTexture) 0 0 = Some (35, 35, 35, 255) /\
  pixelAt 128 (textureBytes checkerboardTexture) 16 0 = Some (230, 230, 230, 255) /\
  pixelAt 128 (textureBytes checkerboardTexture) 0 16 = Some (230, 230, 230, 255) /\
  pixelAt 128 (textureBytes checkerboardTexture) 16 16 = Some (35, 35, 35, 255).
Proof.
  assert (Hpix : forall x y, 0 <= x < 128 -> 0 <= y < 128 ->
     pixelAt 128 (textureBytes checkerboardTexture) x y
     = Some (if Z.lxor (Z.land (Z.shiftr x 4) 1) (Z.land (Z.shiftr y 4) 1) =? 0
             then (35, 35, 35, 255) else (230, 230, 230, 255))).
  { intros x y Hx Hy. cbn [textureBytes checkerboardTexture texture_contents].
    rewrite checkerboardData_pixel by assumption.
    unfold shade, checker. now destruct (_ =? 0). }
  split; [|split; [|split; [|split; [|split; [|split; [|split; [|split; [|split; [|split]]]]]]]]].
  - rewrite loadTextureOrCheckerboard_returns. destruct (loadTexture host url); eauto.
  - intros err Herr. rewrite loadTextureOrCheckerboard_returns, Herr. reflexivity.
  - intros res Hres Hok. rewrite loadTextureOrCheckerboard_returns.
    unfold loadTexture. rewrite Hres. cbn [bind]. rewrite Hok. reflexivity.
  - reflexivity.
  - reflexivity.
  - cbn [textureBytes checkerboardTexture texture_contents].
    apply checkerboardData_length; lia.
  - exact Hpix.
  - rewrite Hpix by lia. reflexivity.
  - rewrite Hpix by lia. reflexivity.
  - rewrite Hpix by lia. reflexivity.
  - rewrite Hpix by lia. reflexivity.
Qed.

(** A host on which every fetch rejects. *)
Lemma fallback_is_checkerboard_witness :
  loadTextureOrCheckerboard
    {| fetch := fun _ => Thrown (Rejected "offline");
       createImageBitmap := fun _ => Thrown (Rejected "undecodable") |}
    "/textures/Negro.avif" = Returned checkerboardTexture /\
  pixelAt 128 (textureBytes checkerboardTexture) 17 3 = Some (230, 230, 230, 255).
Proof.
  pose proof (fallback_is_checkerboard
    {| fetch := fun _ => Thrown (Rejected "offline");
       createImageBitmap := fun _ => Thrown (Rejected "undecodable") |}
    "/textures/Negro.avif") as (_ & Hthrown & _ & _ & _ & _ & Hpix & _).
  split.
  - apply (Hthrown (Rejected "offline")). reflexivity.
  - rewrite (Hpix 17 3) by lia. reflexivity.
Defined.

End TextureLoadFacts.

(** ** Model matrix and step size *)

Local Open Scope R_scope.

(** C2: [buildModelMatrix] builds [T], [S] and [R = Rz * (Ry * Rx)] and
    returns [T * (R * S)] for order TRS, [R * (T * S)] for RTS,
    [S * (R * T)] for SRT, and [T * (R * S)] for any other order value. *)
Theorem buildModelMatrix_by_order {M : Mat4Lib} (cube : CubeState) :
  let T := translation (tx cube) (ty cube) (tz cube) in
  let S := scaling (s cube) (s cube) (s cube) in
  let R := multiply (rotationZ (rz cube))
             (multiply (rotationY (ry cube)) (rotationX (rx cube))) in
  (order cube = "TRS"%string -> buildModelMatrix cube = multiply T (multiply R S)) /\
  (order cube = "RTS"%string -> buildModelMatrix cube = multiply R (multiply T S)) /\
  (order cube = "SRT"%string -> buildModelMatrix cube = multiply S (multiply R T)) /\
  (order cube <> "TRS"%string -> order cube <> "RTS"%string ->
   order cube <> "SRT"%string -> buildModelMatrix cube = multiply T (multiply R S)).
Proof.
  cbn zeta. unfold buildModelMatrix, rotationOf.
  repeat split.
  - intros ->. reflexivity.
  - intros ->. reflexivity.
  - intros ->. reflexivity.
  - intros H1 H2 H3.
    apply String.eqb_neq in H1, H2, H3. now rewrite H1, H2, H3.
Qed.

Lemma frame_dt_clampedStep lastTime now :
  frame_dt lastTime now = clampedStep 0.033 lastTime now.
Proof. unfold frame_dt, clampedStep. apply Rmin_comm. Qed.

(** C3, as stated, fails: for the timestamps 0 ms and 50 ms the step is
    0.033, which is not 1/30, so it is not the smaller of the elapsed time
    and 1/30 s. *)
Lemma frame_dt_ceiling_is_not_one_thirtieth :
  frame_dt 0 50 = 0.033 /\
  frame_dt 0 50 <> 1 / 30 /\
  frame_dt 0 50 <> clampedStep (1 / 30) 0 50.
Proof.
  assert (H : frame_dt 0 50 = 0.033) by (apply Rmin_left; lra).
  assert (H' : clampedStep (1 / 30) 0 50 = 1 / 30) by (apply Rmin_right; lra).
  rewrite H'. rewrite H. repeat split; lra.
Qed.

(** ** Keys and the order toggle *)

Lemma has_true k ks : has k ks = true <-> k ∈ ks.
Proof. unfold has. apply bool_decide_eq_true. Qed.

Lemma has_false k ks : has k ks = false <-> k ∉ ks.
Proof. unfold has. apply bool_decide_eq_false. Qed.

Lemma updateModelState_order ks ms :
  order (updateModelState ks ms)
  = if has "3" ks then "SRT"%string
    else if has "2" ks then "RTS"%string
    else if has "1" ks then "TRS"%string
    else order ms.
Proof.
  unfold updateModelState.
  destruct (has "3" ks), (has "2" ks), (has "1" ks); reflexivity.
Qed.

(** The toggle writes the [order] field and nothing else. *)
Lemma updateModelState_only_order ks ms :
  updateModelState ks ms = set_order (order (updateModelState ks ms)) ms.
Proof.
  unfold updateModelState.
  destruct (has "3" ks), (has "2" ks), (has "1" ks), ms; reflexivity.
Qed.

(** ** One frame *)

Section FrameFacts.
Context {M : Mat4Lib} {C : CameraLib M}.

Lemma frameCube_loop vp dt cs acc :
  foldl (frameCube vp dt) acc cs
  = (acc.1 ++ (advanceRotation dt <$> cs),
     acc.2 ++ (cube ← (advanceRotation dt <$> cs); cubeDraws vp cube)).
Proof.
  revert acc. induction cs as [|c cs IH]; intros [done draws].
  - cbn. now rewrite !app_nil_r.
  - cbn [foldl]. rewrite IH. unfold frameCube, cubeDraws. cbn [fst snd].
    rewrite fmap_cons. cbn [mbind list_bind].
    destruct (uniformBuffer (advanceRotation dt c)), (bindGroup (advanceRotation dt c));
      cbn [fst snd]; rewrite <- !app_assoc; reflexivity.
Qed.

Lemma frame_cubes now w camera :
  cubes (frame now w camera).1.1
  = advanceRotation (frame_dt (lastTime w) now) <$> cubes w.
Proof.
  unfold frame. cbn zeta. rewrite frameCube_loop. reflexivity.
Qed.

Lemma frame_modelState now w camera :
  modelState (frame now w camera).1.1
  = advanceRotation (frame_dt (lastTime w) now)
      (updateModelState (keys w) (modelState w)).
Proof.
  unfold frame. cbn zeta. rewrite frameCube_loop. reflexivity.
Qed.

Lemma frame_keys now w camera : keys (frame now w camera).1.1 = keys w.
Proof.
  unfold frame. cbn zeta. rewrite frameCube_loop. reflexivity.
Qed.

Lemma frame_lastTime now w camera : lastTime (frame now w camera).1.1 = now.
Proof.
  unfold frame. cbn zeta. rewrite frameCube_loop. reflexivity.
Qed.

Lemma frame_device now w camera : device (frame now w camera).1.1 = device w.
Proof.
  unfold frame. cbn zeta. rewrite frameCube_loop. reflexivity.
Qed.

Lemma frame_draws now w camera :
  (frame now w camera).2
  = {| draw_buffer := primaryUniformBuffer;
       draw_mvp := multiply (viewProjection now w camera)
                     (buildModelMatrix (modelState (frame now w camera).1.1));
       draw_bindGroup := primaryBindGroup;
       draw_vertexCount := vertexCount |}
    :: (cube ← cubes (frame now w camera).1.1;
        cubeDraws (viewProjection now w camera) cube).
Proof.
  rewrite frame_cubes, frame_modelState.
  unfold frame, viewProjection. cbn zeta. rewrite frameCube_loop. reflexivity.
Qed.

End FrameFacts.

Section FrameClaims.
Context {M : Mat4Lib} {C : CameraLib M}.

Lemma advanceRotation_lookup dt (cs : list CubeState) i cube :
  cs !! i = Some cube ->
  (advanceRotation dt <$> cs) !! i = Some (advanceRotation dt cube).
Proof. intros H. now rewrite list_lookup_fmap, H. Qed.

(** C3, as the code has it: of two consecutive frames, at [t1] and [t2],
    the second advances the angles by the step [frame_dt t1 t2], which is
    the smaller of the elapsed time in seconds and the ceiling 0.033 s: it
    never exceeds 0.033, it is the elapsed time up to 33 ms and 0.033 from
    33 ms on, and for the timestamps 0 ms and 50 ms it is 0.033. *)
Theorem frame_dt_clamps_at_33ms (t1 t2 : R) (w : World) (camera : Camera) :
  let st := (frame t1 w camera).1 in
  let w' := (frame t2 st.1 st.2).1.1 in
  rx (modelState w')
  = rx (modelState st.1) + rotSpeedX (modelState st.1) * frame_dt t1 t2 /\
  frame_dt t1 t2 = clampedStep 0.033 t1 t2 /\
  frame_dt t1 t2 <= 0.033 /\
  (t2 - t1 <= 33 -> frame_dt t1 t2 = (t2 - t1) / 1000) /\
  (33 <= t2 - t1 -> frame_dt t1 t2 = 0.033) /\
  frame_dt 0 50 = 0.033.
Proof.
  cbn zeta. split.
  { rewrite (frame_modelState t2), frame_lastTime, updateModelState_only_order.
    reflexivity. }
  split; [apply frame_dt_clampedStep|].
  unfold frame_dt. split; [apply Rmin_l|]. split; [|split].
  - intros H. apply Rmin_right. lra.
  - intros H. apply Rmin_left. lra.
  - apply Rmin_left. lra.
Qed.

(** C7: in every frame, whatever keys are held, each of the three angles
    of the primary object and of every spawned object grows by its
    rotation speed times the step [dt] of that frame. *)
Theorem frame_advances_every_rotation (now : R) (w : World) (camera : Camera) :
  let dt := frame_dt (lastTime w) now in
  let w' := (frame now w camera).1.1 in
  (rx (modelState w') = rx (modelState w) + rotSpeedX (modelState w) * dt /\
   ry (modelState w') = ry (modelState w) + rotSpeedY (modelState w) * dt /\
   rz (modelState w') = rz (modelState w) + rotSpeedZ (modelState w) * dt) /\
  length (cubes w') = length (cubes w) /\
  (forall i cube, cubes w !! i = Some cube ->
     exists cube', cubes w' !! i = Some cube' /\
       rx cube' = rx cube + rotSpeedX cube * dt /\
       ry cube' = ry cube + rotSpeedY cube * dt /\
       rz cube' = rz cube + rotSpeedZ cube * dt).
Proof.
  cbn zeta. rewrite frame_modelState, frame_cubes.
  split; [|split].
  - rewrite updateModelState_only_order. cbn. auto.
  - apply length_fmap.
  - intros i cube Hi. exists (advanceRotation (frame_dt (lastTime w) now) cube).
    split; [now apply advanceRotation_lookup|]. cbn. auto.
Qed.

(** C10: a frame leaves the number of spawned objects as it is, and of a
    spawned object it changes no field other than [rx], [ry] and [rz]. *)
Theorem frame_changes_only_angles (now : R) (w : World) (camera : Camera) :
  let w' := (frame now w camera).1.1 in
  length (cubes w') = length (cubes w) /\
  (forall i cube, cubes w !! i = Some cube ->
     exists cube', cubes w' !! i = Some cube' /\
       tx cube' = tx cube /\ ty cube' = ty cube /\ tz cube' = tz cube /\
       s cube' = s cube /\ order cube' = order cube /\
       rotSpeedX cube' = rotSpeedX cube /\ rotSpeedY cube' = rotSpeedY cube /\
       rotSpeedZ cube' = rotSpeedZ cube /\
       uniformBuffer cube' = uniformBuffer cube /\
       bindGroup cube' = bindGroup cube /\
       textureView cube' = textureView cube) /\
  (forall i, cubes w !! i = None -> cubes w' !! i = None).
Proof.
  cbn zeta. rewrite frame_cubes. split; [apply length_fmap|]. split.
  - intros i cube Hi. exists (advanceRotation (frame_dt (lastTime w) now) cube).
    split; [now apply advanceRotation_lookup|]. cbn. repeat split; reflexivity.
  - intros i Hi. now rewrite list_lookup_fmap, Hi.
Qed.

Lemma keydown_modelState key random w :
  modelState (keydown key random w) = modelState w.
Proof. unfold keydown. now destruct (includes excludeKeys key). Qed.




End FrameClaims.

(** ** The [keydown] handler *)

Lemma includes_elem_of (l : list string) (k : string) :
  includes l k = true <-> k ∈ l.
Proof.
  unfold includes. rewrite existsb_exists. split.
  - intros (x & Hx & Heq). apply String.eqb_eq in Heq. subst x.
    now apply list_elem_of_In.
  - intros Hk. exists k. split; [now apply list_elem_of_In|apply String.eqb_refl].
Qed.

Lemma includes_not_elem_of (l : list string) (k : string) :
  includes l k = false <-> k ∉ l.
Proof.
  rewrite <- includes_elem_of. now destruct (includes l k).
Qed.

Lemma keydown_excluded key random w :
  includes excludeKeys key = true ->
  cubes (keydown key random w) = cubes w /\
  device (keydown key random w) = device w.
Proof. intros H. unfold keydown. now rewrite H. Qed.

(** The cube that [keydown] appends: [newCube] after
    [createCubeBindGroup]. *)
Lemma keydown_spawns key random w :
  includes excludeKeys key = false ->
  cubes (keydown key random w)
  = cubes w ++ [(createCubeBindGroup (device w) (newCube random)).1] /\
  device (keydown key random w)
  = (createCubeBindGroup (device w) (newCube random)).2.
Proof. intros H. unfold keydown. now rewrite H. Qed.

Lemma keydown_keys key random w :
  keys (keydown key random w) = {[key]} ∪ keys w.
Proof. unfold keydown. now destruct (includes excludeKeys key). Qed.

(** C4, as the code has it: a key-down appends one object exactly when the
    key is not one of the sixteen movement keys of [excludeKeys]; the
    toggle keys "1", "2" and "3" are not among them, so a key-down for one
    of them appends an object too. *)
Theorem keydown_spawns_unless_movement_key
    (key : string) (random : nat -> R) (w : World) :
  (key ∈ excludeKeys ->
     length (cubes (keydown key random w)) = length (cubes w)) /\
  (key ∉ excludeKeys ->
     length (cubes (keydown key random w)) = S (length (cubes w))) /\
  (("1"%string ∉ excludeKeys) /\ ("2"%string ∉ excludeKeys) /\
   ("3"%string ∉ excludeKeys)) /\
  length (cubes (keydown "1" random w)) = S (length (cubes w)) /\
  length (cubes (keydown "2" random w)) = S (length (cubes w)) /\
  length (cubes (keydown "3" random w)) = S (length (cubes w)).
Proof.
  assert (Hout : forall k, k ∉ excludeKeys ->
            length (cubes (keydown k random w)) = S (length (cubes w))).
  { intros k Hk. apply includes_not_elem_of in Hk.
    destruct (keydown_spawns k random w Hk) as [-> _].
    rewrite length_app. cbn [length]. lia. }
  assert (Hdigits : ("1"%string ∉ excludeKeys) /\ ("2"%string ∉ excludeKeys)
                    /\ ("3"%string ∉ excludeKeys)).
  { repeat split; apply includes_not_elem_of; reflexivity. }
  split; [|split; [exact (Hout key)|split; [exact Hdigits|]]].
  - intros Hk. apply includes_elem_of in Hk.
    now destruct (keydown_excluded key random w Hk) as [-> _].
  - destruct Hdigits as (H1 & H2 & H3). auto.
Qed.

Lemma keydown_spawns_unless_movement_key_witness :
  length (cubes (keydown "ArrowUp" randomHalf freshWorld)) = length (cubes freshWorld) /\
  length (cubes (keydown "x" randomHalf freshWorld)) = S (length (cubes freshWorld)).
Proof.
  destruct (keydown_spawns_unless_movement_key "ArrowUp" randomHalf freshWorld)
    as (Hmovement & _).
  destruct (keydown_spawns_unless_movement_key "x" randomHalf freshWorld)
    as (_ & Hother & _).
  split.
  - apply Hmovement. apply includes_elem_of. reflexivity.
  - apply Hother. apply includes_not_elem_of. reflexivity.
Defined.

(** C4, as stated, fails: on a page without spawned objects a key-down for
    the toggle key "1" leaves one object in the sequence. *)
Lemma keydown_toggle_key_spawns :
  length (cubes freshWorld) = 0%nat /\
  length (cubes (keydown "1" randomHalf freshWorld)) = 1%nat.
Proof. split; reflexivity. Qed.

Lemma Math_floor_range (x : R) (n : Z) :
  0 <= x < IZR n -> (0 <= Math_floor x < n)%Z.
Proof.
  intros Hx. unfold Math_floor.
  destruct (base_Int_part x) as [Hle Hgt].
  split.
  - apply Z.lt_succ_r. apply lt_IZR. rewrite succ_IZR. lra.
  - apply lt_IZR. lra.
Qed.

(** The index [Math.floor(Math.random() * 3)] is 0, 1 or 2, so the cube
    gets a view of one of the three textures. *)
Lemma newCube_textureView random :
  0 <= random 0%nat < 1 ->
  exists t, textureView (newCube random) = Some (createView t).
Proof.
  intros Hr. cbn [newCube textureView].
  assert (Hn : (0 <= Math_floor (random 0%nat * INR 3) < 3)%Z).
  { apply Math_floor_range. cbn [INR]. lra. }
  cbn [length].
  destruct (Math_floor (random 0%nat * INR 3)) as [|p|p] eqn:Hfloor; [| |lia].
  - now exists texture.
  - assert (p = 1 \/ p = 2)%positive as [-> | ->] by lia.
    + now exists texture1.
    + now exists texture2.
Qed.

Lemma random_angle_range (r : R) : 0 <= r < 1 -> 0 <= r * PI * 2 < 2 * PI.
Proof. intros Hr. pose proof PI_RGT_0. split; nra. Qed.

Lemma sin_speed_range (a : R) : -2 <= sin a * 2 <= 2.
Proof. pose proof (SIN_bound a). lra. Qed.

Lemma cos_speed_range (a : R) : -2 <= cos a * 2 <= 2.
Proof. pose proof (COS_bound a). lra. Qed.

(** C5: a key-down for a key outside [excludeKeys] ("x" is one) appends
    exactly one object; with [Math.random()] in [0, 1) its scale is in
    [0.5, 2), its translation components are in [-25, 25], its angles in
    [0, 2 pi), its rotation speeds, twice the sine, cosine and sine of
    three random angles of their own, in [-2, 2], its order is TRS and its
    texture is one of the three loaded.  A key-down for "w" appends
    nothing. *)
Theorem keydown_spawns_random_cube (key : string) (random : nat -> R) (w : World) :
  (includes excludeKeys key = false ->
   (forall i, 0 <= random i < 1) ->
   exists cube,
     cubes (keydown key random w) = cubes w ++ [cube] /\
     length (cubes (keydown key random w)) = S (length (cubes w)) /\
     0.5 <= s cube < 2.0 /\
     -25 <= tx cube <= 25 /\ -25 <= ty cube <= 25 /\ -25 <= tz cube <= 25 /\
     0 <= rx cube < 2 * PI /\ 0 <= ry cube < 2 * PI /\ 0 <= rz cube < 2 * PI /\
     rotSpeedX cube = sin (random 1%nat * PI * 2) * 2 /\
     rotSpeedY cube = cos (random 2%nat * PI * 2) * 2 /\
     rotSpeedZ cube = sin (random 3%nat * PI * 2) * 2 /\
     -2 <= rotSpeedX cube <= 2 /\ -2 <= rotSpeedY cube <= 2 /\
     -2 <= rotSpeedZ cube <= 2 /\
     order cube = "TRS"%string /\
     (exists t, textureView cube = Some (createView t))) /\
  includes excludeKeys "x" = false /\
  length (cubes (keydown "w" random w)) = length (cubes w).
Proof.
  split; [|split; [reflexivity|]].
  - intros Hkey Hrandom.
    destruct (keydown_spawns key random w Hkey) as [Hcubes _].
    eexists. split; [exact Hcubes|]. split.
    { rewrite Hcubes, length_app. cbn [length]. lia. }
    cbn.
    pose proof (Hrandom 4%nat). pose proof (Hrandom 5%nat). pose proof (Hrandom 6%nat).
    pose proof (Hrandom 10%nat).
    pose proof (random_angle_range _ (Hrandom 7%nat)).
    pose proof (random_angle_range _ (Hrandom 8%nat)).
    pose proof (random_angle_range _ (Hrandom 9%nat)).
    pose proof (sin_speed_range (random 1%nat * PI * 2)).
    pose proof (cos_speed_range (random 2%nat * PI * 2)).
    pose proof (sin_speed_range (random 3%nat * PI * 2)).
    pose proof (newCube_textureView random (Hrandom 0%nat)).
    repeat split; try reflexivity; try assumption; lra.
  - now destruct (keydown_excluded "w" random w eq_refl) as [-> _].
Qed.

Lemma keydown_spawns_random_cube_witness :
  exists cube,
    cubes (keydown "x" randomHalf freshWorld) = cubes freshWorld ++ [cube] /\
    0.5 <= s cube < 2.0 /\ -25 <= tx cube <= 25 /\ order cube = "TRS"%string.
Proof.
  destruct (keydown_spawns_random_cube "x" randomHalf freshWorld) as [Hspawn _].
  destruct Hspawn as (cube & Hcubes & _ & Hs & Htx & Hrest).
  - reflexivity.
  - intros i. unfold randomHalf. lra.
  - exists cube. repeat split; try tauto; lra.
Defined.

(** ** Invariants of the scene *)

Lemma cubeReady_mono dev dev' cube :
  (buffersCreated dev <= buffersCreated dev')%nat ->
  cubeReady dev cube -> cubeReady dev' cube.
Proof.
  intros Hle (buffer & Hb & Hg & Hrange & Ho).
  exists buffer. repeat split; try assumption; lia.
Qed.

Lemma cubeReady_advanceRotation dev dt cube :
  cubeReady dev cube -> cubeReady dev (advanceRotation dt cube).
Proof. intros (buffer & Hb & Hg & Hrange & Ho). now exists buffer. Qed.

Lemma createCubeBindGroup_ready dev random :
  (2 <= buffersCreated dev)%nat ->
  cubeReady (createCubeBindGroup dev (newCube random)).2
            (createCubeBindGroup dev (newCube random)).1 /\
  uniformBuffer (createCubeBindGroup dev (newCube random)).1 = Some (buffersCreated dev) /\
  buffersCreated (createCubeBindGroup dev (newCube random)).2 = S (buffersCreated dev).
Proof.
  intros Hdev. split; [|split; reflexivity].
  exists (buffersCreated dev). cbn. unfold primaryUniformBuffer.
  repeat split; lia.
Qed.

Lemma sceneInvariant_initial random now width height :
  sceneInvariant (initialWorld random now width height).
Proof.
  split; [constructor|split; [constructor|]]. cbn. lia.
Qed.

Lemma sceneInvariant_keydown key random w :
  sceneInvariant w -> sceneInvariant (keydown key random w).
Proof.
  intros (Hready & Hnodup & Hdev).
  destruct (includes excludeKeys key) eqn:Hkey.
  - destruct (keydown_excluded key random w Hkey) as [Hc Hd].
    unfold sceneInvariant. now rewrite Hc, Hd.
  - destruct (keydown_spawns key random w Hkey) as [Hc Hd].
    destruct (createCubeBindGroup_ready (device w) random Hdev) as (Hnew & Hbuf & Hcount).
    unfold sceneInvariant. rewrite Hc, Hd. split; [|split].
    + apply Forall_app. split.
      * eapply Forall_impl; [exact Hready|]. intros cube. apply cubeReady_mono. lia.
      * now constructor.
    + rewrite fmap_app. apply NoDup_app. split; [exact Hnodup|]. split.
      * intros b Hb Hb'. apply list_elem_of_fmap in Hb as (cube & -> & Hcube).
        rewrite Forall_forall in Hready.
        destruct (Hready cube Hcube) as (buffer & Hbuffer & _ & Hrange & _).
        cbn [fmap list_fmap] in Hb'. apply list_elem_of_singleton in Hb'.
        rewrite Hbuffer, Hbuf in Hb'. inversion Hb'. lia.
      * apply NoDup_singleton.
    + lia.
Qed.

Section InvariantFacts.
Context {M : Mat4Lib} {C : CameraLib M}.

Lemma sceneInvariant_frame now w camera :
  sceneInvariant w -> sceneInvariant (frame now w camera).1.1.
Proof.
  intros (Hready & Hnodup & Hdev).
  unfold sceneInvariant. rewrite frame_cubes, frame_device.
  split; [|split; [|exact Hdev]].
  - apply Forall_fmap. eapply Forall_impl; [exact Hready|].
    intros cube. apply cubeReady_advanceRotation.
  - now rewrite <- list_fmap_compose.
Qed.

Lemma sceneInvariant_step st e :
  sceneInvariant st.1 -> sceneInvariant (step st e).1.
Proof.
  intros Hinv. destruct e as [key random|key|now]; cbn [step fst snd].
  - now apply sceneInvariant_keydown.
  - exact Hinv.
  - now apply sceneInvariant_frame.
Qed.

Lemma sceneInvariant_run events : forall st,
  sceneInvariant st.1 -> sceneInvariant (run st events).1.
Proof.
  induction events as [|e events IH]; intros st Hinv; [exact Hinv|].
  cbn [run foldl]. apply IH. now apply sceneInvariant_step.
Qed.

(** In a scene that satisfies the invariant the guard of the loop passes
    for every cube: the draws are those of the cubes, one each, in order. *)
Lemma cubeDraws_all vp dev (cs : list CubeState) :
  Forall (cubeReady dev) cs ->
  (Some ∘ draw_buffer) <$> (cube ← cs; cubeDraws vp cube) = uniformBuffer <$> cs /\
  (Some ∘ draw_bindGroup) <$> (cube ← cs; cubeDraws vp cube) = bindGroup <$> cs.
Proof.
  induction 1 as [|cube cs (buffer & Hb & Hg & _) _ [IHb IHg]]; [split; reflexivity|].
  cbn [mbind list_bind]. rewrite !fmap_app, IHb, IHg.
  unfold cubeDraws. rewrite Hb, Hg, !fmap_cons, Hb, Hg. split; reflexivity.
Qed.

End InvariantFacts.

Section SceneClaims.
Context {M : Mat4Lib} {C : CameraLib M}.

(** C9: in every state the page can reach, every object of the sequence
    has a uniform buffer and a bind group on that buffer, no two objects
    share a buffer and none uses the buffer of the primary object; a
    key-down that spawns appends a cube that already has both; and a frame
    issues, after the draw of the primary object, one draw per object of
    the sequence, in order, with that object's buffer and bind group: the
    guard skips none. *)
Theorem spawned_cubes_have_their_resources
    (random : nat -> R) (now width height : R) (camera : Camera)
    (events : list Event) :
  let st := run (initialWorld random now width height, camera) events in
  Forall (fun cube => exists buffer group,
            uniformBuffer cube = Some buffer /\ bindGroup cube = Some group /\
            binding0 group = buffer)
         (cubes st.1) /\
  NoDup (uniformBuffer <$> cubes st.1) /\
  (Some primaryUniformBuffer ∉ uniformBuffer <$> cubes st.1) /\
  (forall key random', key ∉ excludeKeys ->
     exists cube, cubes (keydown key random' st.1) = cubes st.1 ++ [cube] /\
       is_Some (uniformBuffer cube) /\ is_Some (bindGroup cube)) /\
  (forall now', exists first rest,
     (frame now' st.1 st.2).2 = first :: rest /\
     length rest = length (cubes st.1) /\
     (Some ∘ draw_buffer) <$> rest = uniformBuffer <$> cubes st.1 /\
     (Some ∘ draw_bindGroup) <$> rest = bindGroup <$> cubes st.1).
Proof.
  cbn zeta.
  pose proof (sceneInvariant_run events (initialWorld random now width height, camera)
                (sceneInvariant_initial random now width height)) as Hinv.
  set (st := run _ events) in *. clearbody st.
  destruct Hinv as (Hready & Hnodup & Hdev).
  split; [|split; [exact Hnodup|split; [|split]]].
  - eapply Forall_impl; [exact Hready|].
    intros cube (buffer & Hb & Hg & _). exists buffer. eexists.
    split; [exact Hb|]. split; [exact Hg|reflexivity].
  - intros Hin. apply list_elem_of_fmap in Hin as (cube & Heq & Hcube).
    rewrite Forall_forall in Hready.
    destruct (Hready cube Hcube) as (buffer & Hb & _ & Hrange & _).
    rewrite Hb in Heq. inversion Heq. lia.
  - intros key random' Hkey. apply includes_not_elem_of in Hkey.
    destruct (keydown_spawns key random' st.1 Hkey) as [Hcubes _].
    eexists. split; [exact Hcubes|]. cbn. split; eexists; reflexivity.
  - intros now'.
    eexists. eexists. split; [apply frame_draws|].
    pose proof (sceneInvariant_frame now' st.1 st.2 (conj Hready (conj Hnodup Hdev)))
      as (Hready' & _).
    rewrite frame_device in Hready'.
    destruct (cubeDraws_all (viewProjection now' st.1 st.2) _ _ Hready')
      as [Hbuffers Hgroups].
    assert (Hsame : uniformBuffer <$> cubes (frame now' st.1 st.2).1.1
                    = uniformBuffer <$> cubes st.1).
    { rewrite frame_cubes. now rewrite <- list_fmap_compose. }
    assert (Hsame' : bindGroup <$> cubes (frame now' st.1 st.2).1.1
                     = bindGroup <$> cubes st.1).
    { rewrite frame_cubes. now rewrite <- list_fmap_compose. }
    rewrite Hsame in Hbuffers. rewrite Hsame' in Hgroups.
    split; [|split; assumption].
    apply (f_equal length) in Hbuffers. now rewrite !length_fmap in Hbuffers.
Qed.


End SceneClaims.

(** ** The toggle and the objects drawn in a frame *)

Section ToggleClaims.
Context {M : Mat4Lib} {C : CameraLib M}.





End ToggleClaims.




(** ** The claims at concrete scenes *)

Lemma buildModelMatrix_by_order_witness :
  buildModelMatrix (M := termMat4) (set_order "RTS" (initialModelState randomHalf))
  = Multiply (Multiply (RotationZ 0) (Multiply (RotationY 0) (RotationX 0)))
      (Multiply (Translation 0 0 0) (Scaling 1 1 1)) /\
  buildModelMatrix (M := termMat4) (set_order "XYZ" (initialModelState randomHalf))
  = Multiply (Translation 0 0 0)
      (Multiply (Multiply (RotationZ 0) (Multiply (RotationY 0) (RotationX 0)))
         (Scaling 1 1 1)).
Proof.
  destruct (buildModelMatrix_by_order (M := termMat4)
              (set_order "RTS" (initialModelState randomHalf))) as (_ & Hrts & _).
  destruct (buildModelMatrix_by_order (M := termMat4)
              (set_order "XYZ" (initialModelState randomHalf))) as (_ & _ & _ & Hother).
  split.
  - apply Hrts. reflexivity.
  - apply Hother; discriminate.
Defined.

Lemma frame_dt_clamps_at_33ms_witness :
  frame_dt 100 116 = (116 - 100) / 1000 /\ frame_dt 100 200 = 0.033.
Proof.
  destruct (frame_dt_clamps_at_33ms (M := termMat4) (C := termCamera)
              100 116 freshWorld []) as (_ & _ & _ & Hbelow & _).
  destruct (frame_dt_clamps_at_33ms (M := termMat4) (C := termCamera)
              100 200 freshWorld []) as (_ & _ & _ & _ & Habove & _).
  split; [apply Hbelow; lra|apply Habove; lra].
Defined.

Lemma frame_advances_every_rotation_witness :
  exists cube cube',
    cubes (keydown "x" randomHalf freshWorld) !! 0%nat = Some cube /\
    cubes (frame (M := termMat4) (C := termCamera) 16
             (keydown "x" randomHalf freshWorld) []).1.1 !! 0%nat = Some cube' /\
    rx cube' = rx cube + rotSpeedX cube * frame_dt 0 16.
Proof.
  destruct (frame_advances_every_rotation (M := termMat4) (C := termCamera) 16
              (keydown "x" randomHalf freshWorld) []) as (_ & _ & Hcubes).
  eexists.
  destruct (Hcubes 0%nat _ eq_refl) as (cube' & Hlookup & Hrx & _).
  exists cube'. split; [reflexivity|]. split; [exact Hlookup|exact Hrx].
Defined.

Lemma frame_changes_only_angles_witness :
  exists cube cube',
    cubes (keydown "x" randomHalf freshWorld) !! 0%nat = Some cube /\
    cubes (frame (M := termMat4) (C := termCamera) 16
             (keydown "x" randomHalf freshWorld) []).1.1 !! 0%nat = Some cube' /\
    s cube' = s cube /\ order cube' = order cube /\
    uniformBuffer cube' = uniformBuffer cube.
Proof.
  destruct (frame_changes_only_angles (M := termMat4) (C := termCamera) 16
              (keydown "x" randomHalf freshWorld) []) as (_ & Hcubes & _).
  eexists.
  destruct (Hcubes 0%nat _ eq_refl)
    as (cube' & Hlookup & _ & _ & _ & Hs & Ho & _ & _ & _ & Hb & _).
  exists cube'. split; [reflexivity|]. repeat split; assumption.
Defined.

Lemma spawned_cubes_have_their_resources_witness :
  exists cube,
    cubes (keydown "x" randomHalf
             (run (M := termMat4) (C := termCamera) (freshWorld, [])
                [KeyDown "2" randomHalf; AnimationFrame 16]).1)
    = cubes (run (M := termMat4) (C := termCamera) (freshWorld, [])
               [KeyDown "2" randomHalf; AnimationFrame 16]).1 ++ [cube] /\
    is_Some (uniformBuffer cube) /\ is_Some (bindGroup cube).
Proof.
  destruct (spawned_cubes_have_their_resources (M := termMat4) (C := termCamera)
              randomHalf 0 800 600 [] [KeyDown "2" randomHalf; AnimationFrame 16])
    as (_ & _ & _ & Hspawn & _).
  apply Hspawn. apply includes_not_elem_of. reflexivity.
Defined.

(** ** The toggle in numbers

    With the matrices as numbers: "2" is pressed on a fresh page, which
    spawns a cube 25 to the left and turned a quarter about Z, and a frame
    runs.  The primary object then has order RTS; the cube is built with
    TRS, which leaves it 25 to the left (entry 12 is -25), where RTS would
    have turned that offset away (entry 12 would be 0). *)

Lemma randomTurned_cube dev dt :
  advanceRotation dt (createCubeBindGroup dev (newCube randomTurned)).1
  = set_resources (buffersCreated dev)
      (createBindGroup (buffersCreated dev) (Some (createView texture)))
      turnedCube.
Proof.
  assert (Hview : textureView (newCube randomTurned) = Some (createView texture)).
  { cbn [newCube textureView randomTurned length].
    assert (H : (0 <= Math_floor (0 * INR 3) < 1)%Z)
      by (apply Math_floor_range; lra).
    replace (Math_floor (0 * INR 3)) with 0%Z by lia. reflexivity. }
  unfold createCubeBindGroup. cbn [createBuffer fst snd].
  unfold advanceRotation, set_resources, turnedCube.
  cbn [tx ty tz rx ry rz s order uniformBuffer bindGroup textureView
       rotSpeedX rotSpeedY rotSpeedZ].
  rewrite Hview. cbn [newCube tx ty tz rx ry rz s order rotSpeedX rotSpeedY rotSpeedZ
                       randomTurned].
  replace (0 * PI * 2) with 0 by lra.
  replace (1 / 4 * PI * 2) with (PI / 2) by lra.
  rewrite sin_0, cos_PI2.
  f_equal; lra.
Qed.

Lemma toggle_changes_no_spawned_matrix (C : CameraLib realMat4) (camera : Camera) :
  let w := (run (M := realMat4) (freshWorld, camera)
              [KeyDown "2" randomTurned; AnimationFrame 16]).1 in
  order (modelState w) = "RTS"%string /\
  exists cube,
    cubes w = [cube] /\
    order cube = "TRS"%string /\
    entry (buildModelMatrix (M := realMat4) cube) 12 = -25 /\
    entry (buildModelMatrix (M := realMat4) (set_order "RTS" cube)) 12 = 0.
Proof.
  cbn zeta. cbn [run foldl step fst snd]. split.
  - rewrite frame_modelState. cbn [advanceRotation order].
    rewrite updateModelState_order.
    assert (H2 : has "2" (keys (keydown "2" randomTurned freshWorld)) = true)
      by reflexivity.
    assert (H3 : has "3" (keys (keydown "2" randomTurned freshWorld)) = false)
      by reflexivity.
    now rewrite H2, H3.
  - rewrite frame_cubes.
    destruct (keydown_spawns "2" randomTurned freshWorld eq_refl) as [-> _].
    cbn [freshWorld initialWorld cubes device app fmap list_fmap].
    rewrite randomTurned_cube. eexists. split; [reflexivity|].
    split; [reflexivity|]. split.
    + cbn. rewrite ?sin_0, ?cos_0, ?sin_PI2, ?cos_PI2. lra.
    + cbn. rewrite ?sin_0, ?cos_0, ?sin_PI2, ?cos_PI2. lra.
Qed.

(** * Further properties of the module *)

(** ** More on the checkerboard and the texture load *)

Section CheckerboardTiles.
Import Checkerboard.
Local Open Scope Z_scope.

Lemma checker_parity x y : checker x y = (x / 16 + y / 16) mod 2.
Proof.
  unfold checker. rewrite !Z.shiftr_div_pow2 by lia.
  change 1 with (Z.ones 1). rewrite !Z.land_ones by lia.
  change (2 ^ 4) with 16. change (2 ^ 1) with 2.
  rewrite (Z.add_mod (x / 16) (y / 16)) by lia.
  pose proof (Z.mod_pos_bound (x / 16) 2 eq_refl) as Hx.
  pose proof (Z.mod_pos_bound (y / 16) 2 eq_refl) as Hy.
  assert (Hbx : (x / 16) mod 2 = 0 \/ (x / 16) mod 2 = 1) by lia.
  assert (Hby : (y / 16) mod 2 = 0 \/ (y / 16) mod 2 = 1) by lia.
  destruct Hbx as [-> | ->], Hby as [-> | ->]; reflexivity.
Qed.

(** X1: the shade of a pixel depends only on the 16 by 16 tile it lies
    in, it is dark exactly when the sum of the tile's column and row
    numbers is even, it is the same at [(x, y)] and [(y, x)], it changes
    from a tile to the next one in a row or a column and repeats every 32
    pixels. *)
Theorem checkerboard_tiles (x y : Z) :
  (0 <= x < 128 -> 0 <= y < 128 ->
   pixelAt 128 (checkerboardData 128 128) x y
   = Some (if (x / 16 + y / 16) mod 2 =? 0
           then (35, 35, 35, 255) else (230, 230, 230, 255))) /\
  (shade x y = 35 <-> (x / 16 + y / 16) mod 2 = 0) /\
  (shade x y = 230 <-> (x / 16 + y / 16) mod 2 = 1) /\
  (forall x' y', x' / 16 = x / 16 -> y' / 16 = y / 16 -> shade x' y' = shade x y) /\
  shade y x = shade x y /\
  shade (x + 16) y <> shade x y /\
  shade x (y + 16) <> shade x y /\
  shade (x + 32) y = shade x y /\
  shade x (y + 32) = shade x y.
Proof.
  assert (Hshade : forall a b, shade a b = if (a / 16 + b / 16) mod 2 =? 0 then 35 else 230).
  { intros a b. unfold shade. now rewrite checker_parity. }
  assert (Hbit : forall a b, (a / 16 + b / 16) mod 2 = 0 \/ (a / 16 + b / 16) mod 2 = 1).
  { intros a b. pose proof (Z.mod_pos_bound (a / 16 + b / 16) 2 eq_refl). lia. }
  assert (H16 : forall a, (a + 16) / 16 = a / 16 + 1).
  { intros a. replace (a + 16) with (a + 1 * 16) by lia. apply Z.div_add. lia. }
  assert (H32 : forall a, (a + 32) / 16 = a / 16 + 2).
  { intros a. replace (a + 32) with (a + 2 * 16) by lia. apply Z.div_add. lia. }
  split.
  { intros Hx Hy. rewrite checkerboardData_pixel by assumption.
    rewrite Hshade. now destruct (_ =? 0). }
  rewrite !Hshade, H16, H16, H32, H32.
  split; [|split; [|split; [|split; [|split; [|split; [|split]]]]]].
  - destruct (Hbit x y) as [-> | ->]; cbn; split; intros; congruence.
  - destruct (Hbit x y) as [-> | ->]; cbn; split; intros; congruence.
  - intros x' y' Hx Hy. rewrite Hshade, Hx, Hy. reflexivity.
  - now rewrite (Z.add_comm (y / 16)).
  - replace ((x / 16 + 1 + y / 16) mod 2) with ((x / 16 + y / 16 + 1) mod 2) by (f_equal; lia).
    destruct (Hbit x y) as [H | H]; rewrite H.
    + replace ((x / 16 + y / 16 + 1) mod 2) with 1; [discriminate|].
      rewrite Z.add_mod, H by lia. reflexivity.
    + replace ((x / 16 + y / 16 + 1) mod 2) with 0; [discriminate|].
      rewrite Z.add_mod, H by lia. reflexivity.
  - replace ((x / 16 + (y / 16 + 1)) mod 2) with ((x / 16 + y / 16 + 1) mod 2) by (f_equal; lia).
    destruct (Hbit x y) as [H | H]; rewrite H.
    + replace ((x / 16 + y / 16 + 1) mod 2) with 1; [discriminate|].
      rewrite Z.add_mod, H by lia. reflexivity.
    + replace ((x / 16 + y / 16 + 1) mod 2) with 0; [discriminate|].
      rewrite Z.add_mod, H by lia. reflexivity.
  - replace (x / 16 + 2 + y / 16) with (x / 16 + y / 16 + 1 * 2) by lia.
    now rewrite Z.mod_add by lia.
  - replace (x / 16 + (y / 16 + 2)) with (x / 16 + y / 16 + 1 * 2) by lia.
    now rewrite Z.mod_add by lia.
Qed.

Lemma checkerboard_tiles_witness :
  pixelAt 128 (checkerboardData 128 128) 40 100 = Some (35, 35, 35, 255) /\
  shade 5 9 = shade 15 0 /\ shade 20 9 <> shade 4 9.
Proof.
  destruct (checkerboard_tiles 40 100) as (Hpixel & _).
  destruct (checkerboard_tiles 15 0) as (_ & _ & _ & Htile & _).
  destruct (checkerboard_tiles 4 9) as (_ & _ & _ & _ & _ & Hnext & _).
  split; [|split; [apply Htile; reflexivity|exact Hnext]].
  rewrite Hpixel by lia. reflexivity.
Defined.

End CheckerboardTiles.

Section LoadFacts.
Import Checkerboard TextureLoad.
Local Open Scope Z_scope.

(** The attempt inside [try] returns exactly when all four steps do. *)
Lemma loadTexture_returned host url tex :
  loadTexture host url = Returned tex <->
  exists res bytes image,
    fetch host url = Returned res /\ ok res = true /\
    blob res = Returned bytes /\ createImageBitmap host bytes = Returned image /\
    tex = {| texture_width := image_width image;
             texture_height := image_height image;
             texture_contents := FromImage image |}.
Proof.
  unfold loadTexture. split.
  - destruct (fetch host url) as [res|] eqn:Hres; cbn [bind]; [|discriminate].
    destruct (ok res) eqn:Hok; cbn [negb bind]; [|discriminate].
    destruct (blob res) as [bytes|] eqn:Hblob; cbn [bind]; [|discriminate].
    destruct (createImageBitmap host bytes) as [image|] eqn:Himage; cbn [bind];
      [|discriminate].
    intros [= <-]. exists res, bytes, image. auto.
  - intros (res & bytes & image & -> & Hok & Hblob & Himage & ->).
    cbn [bind]. rewrite Hok. cbn [negb bind]. rewrite Hblob. cbn [bind].
    now rewrite Himage.
Qed.

(** X2: [loadTextureOrCheckerboard] returns a texture of the decoded
    image, with the image's width and height, exactly when [fetch]
    resolves with an [ok] response whose [blob] resolves and decodes; in
    every other case it returns the checkerboard.  A texture it returns is
    never both. *)
Theorem load_gives_image_or_checkerboard (host : Host) (url : string) :
  (forall res bytes image,
     fetch host url = Returned res -> ok res = true ->
     blob res = Returned bytes -> createImageBitmap host bytes = Returned image ->
     loadTextureOrCheckerboard host url
     = Returned {| texture_width := image_width image;
                   texture_height := image_height image;
                   texture_contents := FromImage image |}) /\
  ((forall res bytes image,
      fetch host url = Returned res -> ok res = true ->
      blob res = Returned bytes -> createImageBitmap host bytes <> Returned image) ->
   loadTextureOrCheckerboard host url = Returned checkerboardTexture) /\
  (forall image,
     checkerboardTexture <> {| texture_width := image_width image;
                                texture_height := image_height image;
                                texture_contents := FromImage image |}).
Proof.
  split; [|split].
  - intros res bytes image Hres Hok Hblob Himage.
    rewrite loadTextureOrCheckerboard_returns.
    replace (loadTexture host url) with
      (Returned {| texture_width := image_width image;
                   texture_height := image_height image;
                   texture_contents := FromImage image |} : Try GPUTexture);
      [reflexivity|].
    symmetry. apply loadTexture_returned. exists res, bytes, image. auto.
  - intros Hnone. rewrite loadTextureOrCheckerboard_returns.
    destruct (loadTexture host url) as [tex|err] eqn:Hload; [|reflexivity].
    apply loadTexture_returned in Hload
      as (res & bytes & image & Hres & Hok & Hblob & Himage & _).
    now destruct (Hnone res bytes image Hres Hok Hblob).
  - intros image Heq. apply (f_equal texture_contents) in Heq. discriminate Heq.
Qed.

Lemma load_gives_image_or_checkerboard_witness :
  loadTextureOrCheckerboard servingHost "/textures/Metal.avif"
  = Returned {| texture_width := 64; texture_height := 32;
                texture_contents := FromImage {| image_width := 64; image_height := 32 |} |} /\
  loadTextureOrCheckerboard garbledHost "/textures/Metal.avif"
  = Returned checkerboardTexture.
Proof.
  split.
  - destruct (load_gives_image_or_checkerboard servingHost "/textures/Metal.avif")
      as (Himage & _).
    apply (Himage okResponse [1; 2; 3] {| image_width := 64; image_height := 32 |});
      reflexivity.
  - destruct (load_gives_image_or_checkerboard garbledHost "/textures/Metal.avif")
      as (_ & Hfallback & _).
    apply Hfallback. intros res bytes image _ _ _. discriminate.
Defined.

End LoadFacts.

Section StartupFacts.
Import TextureLoad Startup.

Lemma load_some host url :
  exists tex,
    loadTextureOrCheckerboard host url = Returned tex /\
    (tex = checkerboardTexture \/ fromImage tex).
Proof.
  rewrite loadTextureOrCheckerboard_returns.
  destruct (loadTexture host url) as [tex|err] eqn:Hload.
  - exists tex. split; [reflexivity|]. right.
    apply loadTexture_returned in Hload as (_ & _ & image & _ & _ & _ & _ & ->).
    now exists image.
  - exists checkerboardTexture. auto.
Qed.

(** X3: the module gets past its start exactly when [navigator.gpu] is
    defined, the canvas is found, an adapter and a device are obtained and
    the canvas gives a WebGPU context; the first check that fails decides
    the message; a texture that fails to load never stops it, each of the
    three textures being then the checkerboard or a decoded image. *)
Theorem startup_outcome (page : Browser) (host : Host) :
  ((exists textures, startup page host = Started textures) <->
   (exists gpu canvas adapter device,
      navigator_gpu page = Some gpu /\ querySelector page = Some canvas /\
      requestAdapter gpu = Some adapter /\ requestDevice adapter = Returned device /\
      getContext canvas = true)) /\
  (navigator_gpu page = None ->
   startup page host = Aborted (Message "WebGPU not supported")) /\
  (forall gpu, navigator_gpu page = Some gpu -> querySelector page = None ->
   startup page host = Aborted (Message "Canvas #gfx-main not found")) /\
  (forall gpu canvas, navigator_gpu page = Some gpu -> querySelector page = Some canvas ->
   requestAdapter gpu = None ->
   startup page host = Aborted (Message "No GPU adapter found")) /\
  (forall gpu canvas adapter device,
     navigator_gpu page = Some gpu -> querySelector page = Some canvas ->
     requestAdapter gpu = Some adapter -> requestDevice adapter = Returned device ->
     getContext canvas = false ->
     startup page host = Aborted (Message "Could not get WebGPU context")) /\
  (forall err, startup page host = Aborted (Uncaught err) ->
     exists gpu adapter,
       navigator_gpu page = Some gpu /\ requestAdapter gpu = Some adapter /\
       requestDevice adapter = Thrown err) /\
  (forall t0 t1 t2, startup page host = Started (t0, t1, t2) ->
     (t0 = checkerboardTexture \/ fromImage t0) /\
     (t1 = checkerboardTexture \/ fromImage t1) /\
     (t2 = checkerboardTexture \/ fromImage t2)).
Proof.
  unfold startup.
  destruct (load_some host "/textures/Negro.avif") as (t0 & -> & H0).
  destruct (load_some host "/textures/Ladrillo.webp") as (t1 & -> & H1).
  destruct (load_some host "/textures/Metal.avif") as (t2 & -> & H2).
  destruct (navigator_gpu page) as [gpu|];
    [destruct (querySelector page) as [canvas|];
     [destruct (requestAdapter gpu) as [adapter|] eqn:Hadapter;
      [destruct (requestDevice adapter) as [device|err] eqn:Hdevice;
       [destruct (getContext canvas) eqn:Hcontext; cbn [negb]|]|]|]|].
  all: repeat match goal with |- _ /\ _ => split end.
  all: try (intros; congruence).
  all: try (split; [intros [? [=]] | intros (? & ? & ? & ? & ? & ? & ? & ? & ?); congruence]).
  all: try (intros; simplify_eq; eauto 10; fail).
  split; [|eauto]. intros _. exists gpu, canvas, adapter, device. auto.
Qed.

Lemma startup_outcome_witness :
  startup {| navigator_gpu := Some {| requestAdapter := None |};
             querySelector := Some {| getContext := true |} |} garbledHost
  = Aborted (Message "No GPU adapter found") /\
  exists textures,
    startup {| navigator_gpu :=
                 Some {| requestAdapter :=
                           Some {| requestDevice := Returned startDevice |} |};
               querySelector := Some {| getContext := true |} |} garbledHost
    = Started textures.
Proof.
  split.
  - destruct (startup_outcome
                {| navigator_gpu := Some {| requestAdapter := None |};
                   querySelector := Some {| getContext := true |} |} garbledHost)
      as (_ & _ & _ & Hadapter & _).
    eapply Hadapter; reflexivity.
  - destruct (startup_outcome
                {| navigator_gpu :=
                     Some {| requestAdapter :=
                               Some {| requestDevice := Returned startDevice |} |};
                   querySelector := Some {| getContext := true |} |} garbledHost)
      as (Hstarted & _).
    apply Hstarted. do 4 eexists. repeat split; reflexivity.
Defined.

End StartupFacts.

(** ** [resize] *)




(** ** Key events *)

Lemma keyup_keydown_keys key (ks : gset string) :
  key ∉ ks -> ({[key]} ∪ ks) ∖ {[key]} = ks.
Proof.
  intros Hkey. apply set_eq. intros k.
  rewrite elem_of_difference, elem_of_union, elem_of_singleton. split.
  - intros [[-> | Hk] Hne]; [now destruct Hne|exact Hk].
  - intros Hk. split; [now right|]. intros ->. now apply Hkey.
Qed.

(** X5: pressing and releasing a movement key that was not held leaves
    every variable of the scene as it was. *)
Theorem movement_key_press_release (key : string) (random : nat -> R) (w : World) :
  key ∈ excludeKeys -> key ∉ keys w ->
  keyup key (keydown key random w) = w.
Proof.
  intros Hkey Hheld. apply includes_elem_of in Hkey.
  unfold keydown. rewrite Hkey. unfold keyup.
  cbn [keys cubes modelState lastTime device canvas_width canvas_height].
  rewrite keyup_keydown_keys by exact Hheld. now destruct w.
Qed.

Lemma movement_key_press_release_witness :
  keyup "ArrowLeft" (keydown "ArrowLeft" randomHalf freshWorld) = freshWorld.
Proof.
  apply movement_key_press_release.
  - apply includes_elem_of. reflexivity.
  - apply has_false. reflexivity.
Defined.

Section EventFacts.
Context {M : Mat4Lib} {C : CameraLib M}.

Lemma run_snoc st events e : run st (events ++ [e]) = step (run st events) e.
Proof. unfold run. now rewrite foldl_app. Qed.

Lemma step_has k st e :
  has k (keys (step st e).1)
  = match e with
    | KeyDown key _ => if String.eqb key k then true else has k (keys st.1)
    | KeyUp key => if String.eqb key k then false else has k (keys st.1)
    | AnimationFrame _ => has k (keys st.1)
    end.
Proof.
  destruct e as [key random|key|now]; cbn [step fst snd].
  - rewrite keydown_keys. destruct (String.eqb_spec key k) as [-> | Hne].
    + apply has_true, elem_of_union_l, elem_of_singleton. reflexivity.
    + unfold has. apply bool_decide_ext.
      rewrite elem_of_union, elem_of_singleton. split; [|auto].
      intros [-> | Hk]; [now destruct Hne|exact Hk].
  - cbn [keyup keys]. destruct (String.eqb_spec key k) as [-> | Hne].
    + apply has_false. rewrite elem_of_difference, elem_of_singleton.
      intros [_ Hk]. now apply Hk.
    + unfold has. apply bool_decide_ext.
      rewrite elem_of_difference, elem_of_singleton. split; [now intros [Hk _]|].
      intros Hk. split; [exact Hk|congruence].
  - now rewrite frame_keys.
Qed.

(** X6: after any sequence of events a key is held exactly when the last
    key event for it was a key-down, or, without such an event, when it
    was held before; events for other keys and frames do not matter. *)
Theorem keys_track_last_key_event (k : string) (st : World * Camera) (events : list Event) :
  has k (keys (run st events).1) = heldAfter k (has k (keys st.1)) events.
Proof.
  revert st. induction events as [|e events IH]; intros st; [reflexivity|].
  cbn [run foldl heldAfter]. fold (run (step st e) events).
  rewrite IH, step_has. unfold heldAfter. now destruct e.
Qed.

End EventFacts.

Section SceneFacts.
Context {M : Mat4Lib} {C : CameraLib M}.

(** *** What holds of every cube, and of the primary object, over time *)

Lemma step_cubes_Forall (P : CubeState -> Prop) st e :
  (forall dev random, P (createCubeBindGroup dev (newCube random)).1) ->
  (forall dt cube, P cube -> P (advanceRotation dt cube)) ->
  Forall P (cubes st.1) -> Forall P (cubes (step st e).1).
Proof.
  intros Hnew Hadvance Hall. destruct e as [key random|key|now]; cbn [step fst snd].
  - destruct (includes excludeKeys key) eqn:Hkey.
    + now destruct (keydown_excluded key random st.1 Hkey) as [-> _].
    + destruct (keydown_spawns key random st.1 Hkey) as [-> _].
      apply Forall_app. split; [exact Hall|]. constructor; [apply Hnew|constructor].
  - exact Hall.
  - rewrite frame_cubes. apply Forall_fmap.
    eapply Forall_impl; [exact Hall|]. intros cube. apply Hadvance.
Qed.

Lemma run_cubes_Forall (P : CubeState -> Prop) events : forall st,
  (forall dev random, P (createCubeBindGroup dev (newCube random)).1) ->
  (forall dt cube, P cube -> P (advanceRotation dt cube)) ->
  Forall P (cubes st.1) -> Forall P (cubes (run st events).1).
Proof.
  induction events as [|e events IH]; intros st Hnew Hadvance Hall; [exact Hall|].
  cbn [run foldl]. apply IH; try assumption. now apply step_cubes_Forall.
Qed.

Lemma step_modelState (P : CubeState -> Prop) st e :
  (forall o cube, o ∈ orderLabels -> P cube -> P (set_order o cube)) ->
  (forall dt cube, P cube -> P (advanceRotation dt cube)) ->
  P (modelState st.1) -> P (modelState (step st e).1).
Proof.
  intros Horder Hadvance Hp. destruct e as [key random|key|now]; cbn [step fst snd].
  - now rewrite keydown_modelState.
  - exact Hp.
  - rewrite frame_modelState. apply Hadvance.
    unfold updateModelState, orderLabels in *.
    destruct (has "1" _), (has "2" _), (has "3" _);
      repeat (apply Horder; [repeat constructor|]); exact Hp.
Qed.

Lemma run_modelState (P : CubeState -> Prop) events : forall st,
  (forall o cube, o ∈ orderLabels -> P cube -> P (set_order o cube)) ->
  (forall dt cube, P cube -> P (advanceRotation dt cube)) ->
  P (modelState st.1) -> P (modelState (run st events).1).
Proof.
  induction events as [|e events IH]; intros st Horder Hadvance Hp; [exact Hp|].
  cbn [run foldl]. apply IH; try assumption. now apply step_modelState.
Qed.

End SceneFacts.

Lemma spawnCount_cons e events :
  spawnCount (e :: events) = ((if spawns e then 1 else 0) + spawnCount events)%nat.
Proof.
  unfold spawnCount. rewrite filter_cons.
  destruct (spawns e); [rewrite decide_True by exact I|rewrite decide_False by auto];
    reflexivity.
Qed.

Lemma sameBody_refl c : sameBody c c.
Proof. repeat split. Qed.

Section CountFacts.
Context {M : Mat4Lib} {C : CameraLib M}.

Lemma step_counts st e :
  length (cubes (step st e).1)
  = (length (cubes st.1) + if spawns e then 1 else 0)%nat /\
  buffersCreated (device (step st e).1)
  = (buffersCreated (device st.1) + if spawns e then 1 else 0)%nat.
Proof.
  destruct e as [key random|key|now]; cbn [step fst snd spawns].
  - destruct (includes excludeKeys key) eqn:Hkey; cbn [negb].
    + destruct (keydown_excluded key random st.1 Hkey) as [-> ->]. lia.
    + destruct (keydown_spawns key random st.1 Hkey) as [-> ->].
      rewrite length_app. cbn. lia.
  - cbn. lia.
  - rewrite frame_cubes, frame_device, length_fmap. lia.
Qed.

Lemma run_counts events : forall st,
  length (cubes (run st events).1) = (length (cubes st.1) + spawnCount events)%nat /\
  buffersCreated (device (run st events).1)
  = (buffersCreated (device st.1) + spawnCount events)%nat.
Proof.
  induction events as [|e events IH]; intros st.
  - unfold spawnCount. cbn. lia.
  - cbn [run foldl]. fold (run (step st e) events).
    destruct (IH (step st e)) as [-> ->]. destruct (step_counts st e) as [-> ->].
    rewrite spawnCount_cons. lia.
Qed.

(** The cube at place [i] has the buffer made by call [2 + i]. *)
Lemma step_numbered st e :
  buffersCreated (device st.1) = (2 + length (cubes st.1))%nat ->
  (forall i cube, cubes st.1 !! i = Some cube -> uniformBuffer cube = Some (2 + i)%nat) ->
  forall i cube, cubes (step st e).1 !! i = Some cube ->
    uniformBuffer cube = Some (2 + i)%nat.
Proof.
  intros Hdev Hnum i cube. destruct e as [key random|key|now]; cbn [step fst snd].
  - destruct (includes excludeKeys key) eqn:Hkey.
    + destruct (keydown_excluded key random st.1 Hkey) as [-> _]. apply Hnum.
    + destruct (keydown_spawns key random st.1 Hkey) as [-> _].
      intros Hi. apply lookup_app_Some in Hi as [Hi | [Hlen Hi]]; [now apply Hnum|].
      apply list_lookup_singleton_Some in Hi as [Hi <-].
      cbn. rewrite Hdev. f_equal. lia.
  - apply Hnum.
  - rewrite frame_cubes, list_lookup_fmap.
    destruct (cubes st.1 !! i) as [c|] eqn:Hi; [|discriminate].
    intros [= <-]. cbn. now apply Hnum.
Qed.

(** X7: from the start of the page on, the sequence holds one cube per
    key-down outside [excludeKeys], key repeats included; the device has
    made two buffers more than there are cubes, none being freed; and the
    cube at place [i] draws from the buffer made by call [2 + i]. *)
Theorem one_cube_and_buffer_per_spawn
    (random : nat -> R) (now width height : R) (camera : Camera)
    (events : list Event) :
  let st := run (initialWorld random now width height, camera) events in
  length (cubes st.1) = spawnCount events /\
  buffersCreated (device st.1) = (2 + spawnCount events)%nat /\
  (forall i cube, cubes st.1 !! i = Some cube -> uniformBuffer cube = Some (2 + i)%nat).
Proof.
  cbn zeta.
  destruct (run_counts events (initialWorld random now width height, camera)) as [Hc Hd].
  split; [exact Hc|]. split; [exact Hd|]. clear Hc Hd.
  induction events as [|e events IH] using rev_ind.
  - intros i cube Hi. cbn in Hi. now rewrite lookup_nil in Hi.
  - rewrite run_snoc.
    destruct (run_counts events (initialWorld random now width height, camera)) as [Hc Hd].
    apply step_numbered; [|exact IH].
    rewrite Hc, Hd. reflexivity.
Qed.

End CountFacts.

Lemma one_cube_and_buffer_per_spawn_witness :
  exists cube,
    cubes (run (M := termMat4) (C := termCamera) (freshWorld, [])
             [KeyDown "x" randomHalf; KeyDown "x" randomQuarter; KeyUp "x";
              AnimationFrame 16]).1 !! 1%nat = Some cube /\
    uniformBuffer cube = Some 3%nat.
Proof.
  destruct (one_cube_and_buffer_per_spawn (M := termMat4) (C := termCamera)
              randomHalf 0 800 600 []
              [KeyDown "x" randomHalf; KeyDown "x" randomQuarter; KeyUp "x";
               AnimationFrame 16]) as (_ & _ & Hbuffer).
  eexists. split; [reflexivity|]. apply (Hbuffer 1%nat). reflexivity.
Defined.

Lemma newCube_order dev random :
  order (createCubeBindGroup dev (newCube random)).1 = "TRS"%string.
Proof. reflexivity. Qed.


Section ReachableFacts.
Context {M : Mat4Lib} {C : CameraLib M}.

(** X8: from the start of the page on, the order of the primary object
    and of every spawned object is one of the three labels of the switch
    in [buildModelMatrix], so its default branch is never taken: the
    matrix is [T * (R * S)], [R * (T * S)] or [S * (R * T)] by the label. *)
Theorem default_order_never_used
    (random : nat -> R) (now width height : R) (camera : Camera)
    (events : list Event) :
  let st := run (initialWorld random now width height, camera) events in
  Forall (fun cube =>
            order cube ∈ orderLabels /\
            buildModelMatrix cube
            = let T := translation (tx cube) (ty cube) (tz cube) in
              let S := scaling (s cube) (s cube) (s cube) in
              let R := multiply (rotationZ (rz cube))
                         (multiply (rotationY (ry cube)) (rotationX (rx cube))) in
              if String.eqb (order cube) "TRS" then multiply T (multiply R S)
              else if String.eqb (order cube) "RTS" then multiply R (multiply T S)
              else multiply S (multiply R T))
         (modelState st.1 :: cubes st.1).
Proof.
  cbn zeta.
  assert (Hlabel : forall cube, order cube ∈ orderLabels ->
            order cube ∈ orderLabels /\
            buildModelMatrix cube
            = (if String.eqb (order cube) "TRS"
               then multiply (translation (tx cube) (ty cube) (tz cube))
                      (multiply (multiply (rotationZ (rz cube))
                                   (multiply (rotationY (ry cube)) (rotationX (rx cube))))
                         (scaling (s cube) (s cube) (s cube)))
               else if String.eqb (order cube) "RTS"
               then multiply (multiply (rotationZ (rz cube))
                                (multiply (rotationY (ry cube)) (rotationX (rx cube))))
                      (multiply (translation (tx cube) (ty cube) (tz cube))
                         (scaling (s cube) (s cube) (s cube)))
               else multiply (scaling (s cube) (s cube) (s cube))
                      (multiply (multiply (rotationZ (rz cube))
                                   (multiply (rotationY (ry cube)) (rotationX (rx cube))))
                         (translation (tx cube) (ty cube) (tz cube))))).
  { intros cube Hin. split; [exact Hin|].
    unfold buildModelMatrix, rotationOf, orderLabels in *.
    apply elem_of_cons in Hin as [-> | Hin]; [reflexivity|].
    apply elem_of_cons in Hin as [-> | Hin]; [reflexivity|].
    apply list_elem_of_singleton in Hin as ->. reflexivity. }
  constructor.
  - apply Hlabel.
    apply (run_modelState (fun cube => order cube ∈ orderLabels)).
    + intros o cube Ho _. exact Ho.
    + intros dt cube Hc. exact Hc.
    + cbn. unfold orderLabels. left.
  - eapply Forall_impl; [|exact Hlabel].
    apply (run_cubes_Forall (fun cube => order cube ∈ orderLabels)).
    + intros dev random'. rewrite newCube_order. unfold orderLabels. left.
    + intros dt cube Hc. exact Hc.
    + constructor.
Qed.

(** X9: from the start of the page on, the primary object stays at the
    origin with scale 1, keeps the three rotation speeds drawn when the
    module was evaluated and has no buffer or bind group of its own:
    key events and frames change its angles and its order only. *)
Theorem primary_object_keeps_its_body
    (random : nat -> R) (now width height : R) (camera : Camera)
    (events : list Event) :
  let primary := modelState (run (initialWorld random now width height, camera) events).1 in
  tx primary = 0 /\ ty primary = 0 /\ tz primary = 0 /\ s primary = 1 /\
  rotSpeedX primary = sin (random 0%nat * PI * 2) * 2 /\
  rotSpeedY primary = cos (random 1%nat * PI * 2) * 2 /\
  rotSpeedZ primary = sin (random 2%nat * PI * 2) * 2 /\
  uniformBuffer primary = None /\ bindGroup primary = None /\
  textureView primary = None.
Proof.
  cbn zeta.
  pose proof (run_modelState (sameBody (initialModelState random)) events
                (initialWorld random now width height, camera)) as Hbody.
  destruct Hbody as (? & ? & ? & ? & ? & ? & ? & ? & ? & ?).
  - intros o cube _ Hc. exact Hc.
  - intros dt cube Hc. exact Hc.
  - apply sameBody_refl.
  - repeat split; assumption.
Qed.


End ReachableFacts.


Lemma advanceRotation_zero cube : advanceRotation 0 cube = cube.
Proof. destruct cube. unfold advanceRotation. cbn. f_equal; lra. Qed.

Lemma frame_dt_backwards lastTime now :
  now <= lastTime ->
  frame_dt lastTime now = (now - lastTime) / 1000 /\ frame_dt lastTime now <= 0.
Proof.
  intros Hnow. unfold frame_dt. rewrite Rmin_right by lra. split; [reflexivity|lra].
Qed.

Section FrameTimeFacts.
Context {M : Mat4Lib} {C : CameraLib M}.

(** X11: the step of a frame has no lower clamp: with a timestamp that
    is not after the last one it is the elapsed time itself, in seconds,
    zero or negative however far back the timestamp lies; an angle then
    does not grow where the speed is not negative and does not shrink
    where it is not positive; and with the timestamp of the last frame no
    cube changes. *)
Theorem frame_step_is_not_clamped_below (now : R) (w : World) (camera : Camera) :
  now <= lastTime w ->
  let dt := frame_dt (lastTime w) now in
  let w' := (frame now w camera).1.1 in
  dt = (now - lastTime w) / 1000 /\ dt <= 0 /\
  (0 <= rotSpeedX (modelState w) -> rx (modelState w') <= rx (modelState w)) /\
  (rotSpeedX (modelState w) <= 0 -> rx (modelState w) <= rx (modelState w')) /\
  (forall i cube cube',
     cubes w !! i = Some cube -> cubes w' !! i = Some cube' ->
     (0 <= rotSpeedX cube -> rx cube' <= rx cube) /\
     (rotSpeedX cube <= 0 -> rx cube <= rx cube') /\
     (0 <= rotSpeedY cube -> ry cube' <= ry cube) /\
     (rotSpeedY cube <= 0 -> ry cube <= ry cube') /\
     (0 <= rotSpeedZ cube -> rz cube' <= rz cube) /\
     (rotSpeedZ cube <= 0 -> rz cube <= rz cube')) /\
  (now = lastTime w -> cubes w' = cubes w).
Proof.
  intros Hnow. cbn zeta.
  destruct (frame_dt_backwards (lastTime w) now Hnow) as [Hdt Hneg].
  split; [exact Hdt|]. split; [exact Hneg|].
  split; [|split; [|split]].
  - intros Hspeed. rewrite frame_modelState, updateModelState_only_order.
    cbn [advanceRotation set_order rx rotSpeedX]. nra.
  - intros Hspeed. rewrite frame_modelState, updateModelState_only_order.
    cbn [advanceRotation set_order rx rotSpeedX]. nra.
  - intros i cube cube' Hi Hi'.
    rewrite frame_cubes, list_lookup_fmap, Hi in Hi'. injection Hi' as <-.
    cbn [advanceRotation rx ry rz]. repeat split; intros; nra.
  - intros ->. rewrite frame_cubes.
    replace (frame_dt (lastTime w) (lastTime w)) with 0
      by (rewrite Hdt; lra).
    rewrite <- (list_fmap_id (cubes w)) at 2.
    apply list_fmap_ext. intros _ cube _. apply advanceRotation_zero.
Qed.

(** *** The guard of the draw loop *)

Lemma cubeDraws_filter vp (cs : list CubeState) :
  (Some ∘ draw_buffer) <$> (cube ← cs; cubeDraws vp cube)
  = uniformBuffer <$> filter hasResources cs /\
  (Some ∘ draw_bindGroup) <$> (cube ← cs; cubeDraws vp cube)
  = bindGroup <$> filter hasResources cs.
Proof.
  induction cs as [|cube cs [IHb IHg]]; [split; reflexivity|].
  cbn [mbind list_bind]. rewrite !fmap_app, IHb, IHg, filter_cons.
  destruct (decide (hasResources cube)) as [Hres|Hres].
  - unfold hasResources in Hres. unfold cubeDraws.
    destruct (uniformBuffer cube) as [buffer|] eqn:Hb; [|contradiction].
    destruct (bindGroup cube) as [group|] eqn:Hg; [|contradiction].
    rewrite !fmap_cons, Hb, Hg. split; reflexivity.
  - assert (Hnone : cubeDraws vp cube = []).
    { unfold cubeDraws, hasResources in *.
      destruct (uniformBuffer cube), (bindGroup cube); try reflexivity.
      now destruct Hres. }
    rewrite Hnone. split; reflexivity.
Qed.

Lemma filter_hasResources_advance dt (cs : list CubeState) :
  filter hasResources (advanceRotation dt <$> cs)
  = advanceRotation dt <$> filter hasResources cs.
Proof.
  induction cs as [|cube cs IH]; [reflexivity|].
  rewrite fmap_cons, !filter_cons, IH.
  change (hasResources (advanceRotation dt cube)) with (hasResources cube).
  destruct (decide (hasResources cube)); reflexivity.
Qed.

(** X13: in any scene, a frame draws the primary object first and then,
    in the order of the sequence, exactly the cubes that have both a
    uniform buffer and a bind group, each from its own buffer and bind
    group; a cube that lacks one is not drawn but is still turned. *)
Theorem frame_draws_the_cubes_with_resources (now : R) (w : World) (camera : Camera) :
  exists first rest,
    (frame now w camera).2 = first :: rest /\
    draw_buffer first = primaryUniformBuffer /\
    draw_bindGroup first = primaryBindGroup /\
    (Some ∘ draw_buffer) <$> rest = uniformBuffer <$> filter hasResources (cubes w) /\
    (Some ∘ draw_bindGroup) <$> rest = bindGroup <$> filter hasResources (cubes w) /\
    Forall (fun draw => draw_vertexCount draw = 36%nat) (first :: rest) /\
    cubes (frame now w camera).1.1
    = advanceRotation (frame_dt (lastTime w) now) <$> cubes w.
Proof.
  eexists. eexists. split; [apply frame_draws|].
  split; [reflexivity|]. split; [reflexivity|].
  destruct (cubeDraws_filter (viewProjection now w camera) (cubes (frame now w camera).1.1))
    as [Hb Hg].
  rewrite Hb, Hg, frame_cubes, filter_hasResources_advance, <- !list_fmap_compose.
  split; [reflexivity|]. split; [reflexivity|]. split; [|reflexivity].
  constructor; [reflexivity|].
  apply Forall_forall. intros draw Hdraw.
  apply list_elem_of_bind in Hdraw as (cube & Hdraw & _).
  unfold cubeDraws in Hdraw.
  destruct (uniformBuffer cube), (bindGroup cube);
    try (now apply elem_of_nil in Hdraw).
  apply list_elem_of_singleton in Hdraw as ->. reflexivity.
Qed.

(** *** The camera *)

Lemma step_camera (P : Camera -> Prop) st e :
  (forall ks dt camera, dt <= 0.033 -> P camera -> P (camera_update ks dt camera)) ->
  P st.2 -> P (step st e).2.
Proof.
  intros Hupdate Hp. destruct e as [key random|key|now]; cbn [step fst snd]; try exact Hp.
  unfold frame. cbn zeta. rewrite frameCube_loop. cbn [fst snd].
  apply Hupdate; [apply Rmin_l|exact Hp].
Qed.

(** X14: the camera changes only through the [update] call of a frame,
    and the step passed to it never exceeds 0.033; so whatever holds of
    the camera at the beginning and is kept by an update with such a step
    holds after any sequence of key events and frames. *)
Theorem camera_sees_only_clamped_steps
    (P : Camera -> Prop) (st : World * Camera) (events : list Event) :
  (forall ks dt camera, dt <= 0.033 -> P camera -> P (camera_update ks dt camera)) ->
  P st.2 -> P (run st events).2.
Proof.
  intros Hupdate. revert st.
  induction events as [|e events IH]; intros st Hp; [exact Hp|].
  cbn [run foldl]. apply IH. now apply step_camera.
Qed.

End FrameTimeFacts.

Lemma frame_step_is_not_clamped_below_witness :
  frame_dt (lastTime (initialWorld randomQuarter 0 800 600)) (-1000) = (-1000 - 0) / 1000 /\
  rx (modelState (frame (M := termMat4) (C := termCamera) (-1000)
                    (initialWorld randomQuarter 0 800 600) []).1.1)
  <= rx (modelState (initialWorld randomQuarter 0 800 600)).
Proof.
  destruct (frame_step_is_not_clamped_below (M := termMat4) (C := termCamera) (-1000)
              (initialWorld randomQuarter 0 800 600) []) as (Hdt & _ & Hback & _).
  - cbn. lra.
  - split; [exact Hdt|]. apply Hback.
    cbn. unfold randomQuarter. replace (1 / 4 * PI * 2) with (PI / 2) by lra.
    rewrite sin_PI2. lra.
Defined.

Lemma camera_sees_only_clamped_steps_witness :
  Forall (fun update : gset string * R => update.2 <= 0.033)
    (run (M := termMat4) (C := termCamera) (freshWorld, [])
       [KeyDown "w" randomHalf; AnimationFrame 16; AnimationFrame 500]).2.
Proof.
  apply (camera_sees_only_clamped_steps (M := termMat4) (C := termCamera)
           (Forall (fun update : gset string * R => update.2 <= 0.033))).
  - intros ks dt camera Hdt Hall. apply Forall_app. split; [exact Hall|].
    constructor; [exact Hdt|constructor].
  - constructor.
Defined.

(** *** The primary object with the matrices as numbers *)

Lemma real_multiply_entries a b :
  real_multiply a b = entry (real_multiply a b) <$> seq 0 16.
Proof. reflexivity. Qed.

Lemma real_identity_l a b :
  real_multiply (real_translation 0 0 0) (real_multiply a b) = real_multiply a b.
Proof.
  pose proof (real_multiply_entries a b) as Hm.
  set (m := real_multiply a b) in *. clearbody m.
  rewrite Hm at 2. unfold real_multiply, real_translation.
  cbn [fmap list_fmap seq Nat.modulo Nat.div Nat.divmod fst snd Nat.mul Nat.add Nat.sub entry nth].
  repeat (f_equal; try ring).
Qed.

Lemma real_identity_r a b :
  real_multiply (real_multiply a b) (real_translation 0 0 0) = real_multiply a b.
Proof.
  pose proof (real_multiply_entries a b) as Hm.
  set (m := real_multiply a b) in *. clearbody m.
  rewrite Hm at 2. unfold real_multiply, real_translation.
  cbn [fmap list_fmap seq Nat.modulo Nat.div Nat.divmod fst snd Nat.mul Nat.add Nat.sub entry nth].
  repeat (f_equal; try ring).
Qed.

Lemma real_identity_identity :
  real_multiply (real_translation 0 0 0) (real_translation 0 0 0) = real_translation 0 0 0.
Proof.
  unfold real_multiply, real_translation.
  cbn [fmap list_fmap seq Nat.modulo Nat.div Nat.divmod fst snd Nat.mul Nat.add Nat.sub entry nth].
  repeat (f_equal; try ring).
Qed.

Lemma real_unmoved_matrix (o : string) (cube : CubeState) :
  tx cube = 0 -> ty cube = 0 -> tz cube = 0 -> s cube = 1 ->
  buildModelMatrix (M := realMat4) (set_order o cube) = rotationOf (M := realMat4) cube.
Proof.
  intros Hx Hy Hz Hs. unfold buildModelMatrix, rotationOf.
  cbn [set_order tx ty tz rx ry rz s order realMat4 translation scaling multiply
       rotationX rotationY rotationZ].
  rewrite Hx, Hy, Hz, Hs.
  change (real_scaling 1 1 1) with (real_translation 0 0 0).
  rewrite real_identity_identity, !real_identity_r, !real_identity_l.
  now destruct (String.eqb o "TRS"), (String.eqb o "RTS"), (String.eqb o "SRT").
Qed.

(** X15: with the matrices of [mat4] as numbers, the model matrix of the
    primary object is its rotation [Rz * (Ry * Rx)] whatever its order:
    the object sits at the origin with scale 1, so the three orders give
    the same matrix, and the toggle keys do not change what is drawn for
    it. *)
Theorem toggle_does_not_change_the_primary_matrix
    (C : CameraLib realMat4) (random : nat -> R) (now width height : R)
    (camera : Camera) (events : list Event) (o : string) :
  let primary := modelState (run (M := realMat4) (initialWorld random now width height, camera)
                               events).1 in
  buildModelMatrix (M := realMat4) primary = rotationOf (M := realMat4) primary /\
  buildModelMatrix (M := realMat4) (set_order o primary)
  = buildModelMatrix (M := realMat4) primary.
Proof.
  cbn zeta.
  set (primary := modelState _).
  assert (Hbody : sameBody (initialModelState random) primary).
  { apply (run_modelState (sameBody (initialModelState random))).
    - intros o' cube _ Hc. exact Hc.
    - intros dt cube Hc. exact Hc.
    - apply sameBody_refl. }
  destruct Hbody as (Hx & Hy & Hz & Hs & _).
  assert (Hany : forall o', buildModelMatrix (M := realMat4) (set_order o' primary)
                            = rotationOf (M := realMat4) primary).
  { intros o'. now apply real_unmoved_matrix. }
  assert (Hself : set_order (order primary) primary = primary) by now destruct primary.
  split.
  - rewrite <- Hself at 1. apply Hany.
  - rewrite Hany. rewrite <- Hself at 2. now rewrite Hany.
Qed.
